(** * URL shortener (backend/app.py): model and verified properties

    A shallow embedding of the Flask application in [backend/app.py]:
    the code generator, the two windowed counters, the [urls] table and
    the two views [shorten] and [follow] together with the [rate_limit]
    decorator.

    Conventions.
    - A Python [str] is a [string]; a character of the model stands for
      the code point of the same number, so the strings of the model are
      the Python strings over U+0000..U+00FF.  [isspace] and [isalnum]
      are the tables of CPython for that range.
    - Python integers are [Z].
    - The SQLite file is the record [Db]: the rows of [urls] in rowid
      order, and the two counter tables as finite maps on their
      conflict keys.
    - What a request reads from outside the program (the request itself,
      the clocks, the random source) is the record [Ctx]. *)

From Stdlib Require Import ZArith Lia List Ascii.
From stdpp Require Import base option list gmap strings.

Open Scope Z_scope.

(** ** Python string primitives *)

Module Py.

(** Code point of a character. *)
Definition ord (c : ascii) : Z := Z.of_N (N_of_ascii c).

Definition between (lo hi : Z) (c : ascii) : bool :=
  (lo <=? ord c) && (ord c <=? hi).

(** [str.isspace] on one character, U+0000..U+00FF. *)
Definition isspace (c : ascii) : bool :=
  between 9 13 c || between 28 32 c
  || (ord c =? 133) || (ord c =? 160).

Definition isdigit_ascii (c : ascii) : bool := between 48 57 c.
Definition isupper_ascii (c : ascii) : bool := between 65 90 c.
Definition islower_ascii (c : ascii) : bool := between 97 122 c.

(** [str.isalnum] on one character, U+0000..U+00FF: the ASCII letters
    and digits, the Latin-1 letters (U+00AA, U+00B5, U+00BA,
    U+00C0..U+00FF without the two operators U+00D7 and U+00F7) and
    the Latin-1 numeric characters (superscripts U+00B2, U+00B3,
    U+00B9 and the fractions U+00BC..U+00BE). *)
Definition isalnum (c : ascii) : bool :=
  isdigit_ascii c || isupper_ascii c || islower_ascii c
  || (ord c =? 170) || (ord c =? 181) || (ord c =? 186)
  || between 192 214 c || between 216 246 c || between 248 255 c
  || (ord c =? 178) || (ord c =? 179) || (ord c =? 185)
  || between 188 190 c.

(** [len(s)] *)
Definition len (s : string) : Z := Z.of_nat (String.length s).

(** Truth value of a string: non-empty. *)
Definition truthy (s : string) : bool :=
  match s with EmptyString => false | String _ _ => true end.

(** [c in s] for a character. *)
Fixpoint char_in (c : ascii) (s : string) : bool :=
  match s with
  | EmptyString => false
  | String d s' => if decide (c = d) then true else char_in c s'
  end.

(** [all(p(c) for c in s)] *)
Fixpoint all (p : ascii -> bool) (s : string) : bool :=
  match s with
  | EmptyString => true
  | String c s' => if p c then all p s' else false
  end.

(** [s.lstrip(...)], the characters to drop given as a predicate. *)
Fixpoint lstrip_with (p : ascii -> bool) (s : string) : string :=
  match s with
  | EmptyString => EmptyString
  | String c s' => if p c then lstrip_with p s' else s
  end.

(** [s.rstrip(...)] *)
Fixpoint rstrip_with (p : ascii -> bool) (s : string) : string :=
  match s with
  | EmptyString => EmptyString
  | String c s' =>
      match rstrip_with p s' with
      | EmptyString => if p c then EmptyString else String c EmptyString
      | r => String c r
      end
  end.

(** [s.strip()] *)
Definition strip (s : string) : string :=
  rstrip_with isspace (lstrip_with isspace s).

(** [s.rstrip("/")] *)
Definition rstrip_slash (s : string) : string :=
  rstrip_with (fun c => bool_decide (c = "/"%char)) s.

(** [s.split(",")[0]]: the text before the first comma. *)
Fixpoint split_comma_first (s : string) : string :=
  match s with
  | EmptyString => EmptyString
  | String c s' =>
      if decide (c = ","%char) then EmptyString
      else String c (split_comma_first s')
  end.

(** ["".join(l)] for a list of one-character strings. *)
Fixpoint join (l : list ascii) : string :=
  match l with
  | [] => EmptyString
  | c :: l' => String c (join l')
  end.

(** [c * n] for a one-character string [c]. *)
Definition repeat_char (c : ascii) (n : Z) : string :=
  join (replicate (Z.to_nat n) c).

End Py.

(** ** Constants of the module *)

Definition BASE62_ALPHABET : string :=
  "0123456789ABCDEFGHIJKLMNOPQRSTUVWXYZabcdefghijklmnopqrstuvwxyz".
Definition CODE_LENGTH : Z := 7.
Definition MAX_URL_LENGTH : Z := 2048.
Definition EXPIRATION_HOURS : Z := 24.
Definition SPAM_WINDOW_SECONDS : Z := 30.
Definition SPAM_MAX_DUPLICATES : Z := 3.

(** A rate-limit configuration, [{"limit": l, "window": w}]. *)
Record RateConfig := { rc_limit : Z; rc_window : Z }.

(** [RATE_LIMITS.get(bucket)] *)
Definition RATE_LIMITS (bucket : string) : option RateConfig :=
  if decide (bucket = "shorten") then Some {| rc_limit := 10; rc_window := 60 |}
  else if decide (bucket = "follow") then Some {| rc_limit := 120; rc_window := 60 |}
  else None.

(** ** Code generator *)

(** [BASE62_ALPHABET[rem]]; the index is a remainder modulo 62, so it
    is always in range (see [alphabet_at_in_range]). *)
Definition alphabet_at (rem : Z) : ascii :=
  match String.get (Z.to_nat rem) BASE62_ALPHABET with
  | Some c => c
  | None => "0"%char
  end.

(** The [while value > 0] loop of [base62_encode]: [chars] is the list
    built by [append].  Every turn divides [value] by 62, so
    [base62_fuel value] turns are enough ([base62_loop_enough]). *)
Fixpoint base62_loop (fuel : nat) (value : Z) (chars : list ascii) : list ascii :=
  match fuel with
  | O => chars
  | S fuel' =>
      if 0 <? value then
        let '(value', rem) := Z.div_eucl value 62 in
        base62_loop fuel' value' (chars ++ [alphabet_at rem])
      else chars
  end.

Definition base62_fuel (value : Z) : nat := S (Z.to_nat (Z.log2 value)).

Definition base62_encode (value : Z) (min_length : Z) : string :=
  let encoded :=
    if value =? 0 then "0"
    else Py.join (rev (base62_loop (base62_fuel value) value [])) in
  if Py.len encoded <? min_length
  then Py.repeat_char "0" (min_length - Py.len encoded) +:+ encoded
  else encoded.

(** [generate_code()], given the value drawn by
    [secrets.randbelow(62 ** CODE_LENGTH)]. *)
Definition generate_code (drawn : Z) : string :=
  base62_encode drawn CODE_LENGTH.

(** The seven base-62 digits of [v], most significant first: the
    positional representation the encoding is compared with. *)
Fixpoint digits62 (n : nat) (v : Z) : list Z :=
  match n with
  | O => []
  | S n' => digits62 n' (v / 62) ++ [v mod 62]
  end.

Definition base62_padded (n : nat) (v : Z) : string :=
  Py.join (map alphabet_at (digits62 n v)).

(** Membership in the class [[0-9A-Za-z]]. *)
Definition is_base62_char (c : ascii) : bool :=
  Py.isdigit_ascii c || Py.isupper_ascii c || Py.islower_ascii c.

(** ** The database *)

(** A row of [urls].  The two timestamps are the stored ISO strings
    ([...isoformat(timespec="seconds") + "Z"]), kept as the number of
    seconds they denote. *)
Record UrlRow := {
  u_id : Z;
  u_code : string;
  u_original_url : string;
  u_created_at : Z;
  u_expires_at : Z;
  u_click_count : Z
}.

(** A row of [rate_limits] or of [spam_submissions], without its key. *)
Record Window := { window_start : Z; count : Z }.

(** [rate_limits] is keyed by [(ip, bucket)] and [spam_submissions] by
    [(ip, original_url)]: the [ON CONFLICT] targets of the two upserts. *)
Record Db := {
  urls : list UrlRow;
  rate_limits : gmap (string * string) Window;
  spam_submissions : gmap (string * string) Window
}.

Definition set_urls (db : Db) (l : list UrlRow) : Db :=
  {| urls := l; rate_limits := rate_limits db;
     spam_submissions := spam_submissions db |}.

Definition set_rate_limits (db : Db) (m : gmap (string * string) Window) : Db :=
  {| urls := urls db; rate_limits := m;
     spam_submissions := spam_submissions db |}.

Definition set_spam_submissions (db : Db) (m : gmap (string * string) Window) : Db :=
  {| urls := urls db; rate_limits := rate_limits db;
     spam_submissions := m |}.

Module Sql.

(** [SELECT ... FROM urls WHERE original_url = ?] then [fetchone()] *)
Definition select_by_original_url (db : Db) (url : string) : option UrlRow :=
  find (fun r => bool_decide (u_original_url r = url)) (urls db).

(** [SELECT ... FROM urls WHERE code = ?] then [fetchone()] *)
Definition select_by_code (db : Db) (code : string) : option UrlRow :=
  find (fun r => bool_decide (u_code r = code)) (urls db).

(** The rowid given to a new row: one more than the largest in use. *)
Definition next_id (l : list UrlRow) : Z :=
  foldr Z.max 0 (map u_id l) + 1.

(** Modelled from the spec: [schema.sql] is not part of the sources.
    The spec has [code] unique across all stored entries, enforced by
    the store at write time, and [clickCount] starting at 0.

    The row that [INSERT INTO urls (code, original_url, created_at,
    expires_at) VALUES (?, ?, ?, ?)] adds. *)
Definition new_row (db : Db) (code original_url : string)
    (created_at expires_at : Z) : UrlRow :=
  {| u_id := next_id (urls db); u_code := code;
     u_original_url := original_url;
     u_created_at := created_at; u_expires_at := expires_at;
     u_click_count := 0 |}.

(** The [INSERT] itself: [None] is [sqlite3.IntegrityError], raised
    when the code is already in the table. *)
Definition insert_url (db : Db) (code original_url : string)
    (created_at expires_at : Z) : option Db :=
  if existsb (fun r => bool_decide (u_code r = code)) (urls db) then None
  else Some (set_urls db (urls db ++
               [new_row db code original_url created_at expires_at])).

(** [DELETE FROM urls WHERE id = ?] *)
Definition delete_by_id (db : Db) (i : Z) : Db :=
  set_urls db (filter (fun r => u_id r ≠ i) (urls db)).

(** A row with one more click. *)
Definition clicked (r : UrlRow) : UrlRow :=
  {| u_id := u_id r; u_code := u_code r;
     u_original_url := u_original_url r;
     u_created_at := u_created_at r;
     u_expires_at := u_expires_at r;
     u_click_count := u_click_count r + 1 |}.

(** [UPDATE urls SET click_count = click_count + 1 WHERE id = ?] *)
Definition bump_click_count (db : Db) (i : Z) : Db :=
  set_urls db
    (map (fun r => if decide (u_id r = i) then clicked r else r) (urls db)).

End Sql.

(** ** Requests and responses *)

(** A JSON value, as far as [shorten] tells values apart: [JNull] is
    [null] and also a key that the object lacks ([payload.get] gives
    [None]); [JOther t] is a boolean, a number, an array or an object,
    with its truth value [t] for Python. *)
Inductive Json :=
  | JNull
  | JString (s : string)
  | JOther (truthy : bool).

(** What [request.get_json(silent=True) or {}] gives: an object, of
    which the values of the keys "url" and "code" are kept, or a true
    value that is no object (an array or a string that is not empty, a
    number but 0, [true]).  A body that is no JSON, [null] or another
    false value is read as the object without keys. *)
Inductive JsonBody :=
  | JObject (url code : Json)
  | JNotObject.

(** What one request reads from its environment.  Each clock reading of
    the source has its own field, since the calls are separate. *)
Record Ctx := {
  (** [request.get_json(silent=True) or {}] *)
  json_body : JsonBody;
  (** the [<code>] part of the path of [GET /<code>] *)
  path_code : string;
  (** the [X-Forwarded-For] header, [None] when the request has none *)
  x_forwarded_for : option string;
  (** [request.remote_addr] *)
  remote_addr : option string;
  (** [request.host_url] and [current_app.config.get("BASE_URL")] *)
  host_url : string;
  config_base_url : string;
  (** [int(time.time())] as read by [check_rate_limit] and by
      [is_spam_submission] *)
  time_rate : Z;
  time_spam : Z;
  (** [datetime.utcnow()] in microseconds since the epoch: the two
      readings of [shorten] and the one of [follow] *)
  utcnow_created : Z;
  utcnow_expires : Z;
  utcnow_follow : Z;
  (** the successive values of [secrets.randbelow(62 ** CODE_LENGTH)] *)
  randbelow : nat -> Z
}.

Inductive Body :=
  | JsonError (error : string)
  | JsonCreated (code original_url short_url : string) (expires_at : Z)
  | JsonExisting (code original_url short_url message : string)
  | NotFoundPage (code : string)
  | Redirect (location : string)
  | InternalServerError.

(** A view returns a body and a status code. *)
Definition Response : Type := Body * Z.

Definition View : Type := Ctx -> Db -> Response * Db.

(** [d.isoformat(timespec="seconds") + "Z"], as seconds. *)
Definition isoformat_seconds (d : Z) : Z := d / 1000000.

(** [datetime.fromisoformat(s.replace("Z", "+00:00"))], in microseconds. *)
Definition fromisoformat (s : Z) : Z := s * 1000000.

(** [timedelta(hours=h)] in microseconds. *)
Definition timedelta_hours (h : Z) : Z := h * 3600 * 1000000.

(** ** Validation *)

Definition validate_custom_code (code : string) : option string :=
  if negb (Py.truthy code) then None
  else if Py.len code <? 3 then
    Some "Short code must be at least 3 characters."
  else if 32 <? Py.len code then
    Some "Short code must be at most 32 characters."
  else if negb (Py.all (fun c => Py.isalnum c || Py.char_in c "-_") code) then
    Some "Short code can only contain letters, numbers, hyphens, and underscores."
  else None.

(** ** Client address *)

Definition get_client_ip (ctx : Ctx) : string :=
  let forwarded := default "" (x_forwarded_for ctx) in
  if Py.truthy forwarded then Py.strip (Py.split_comma_first forwarded)
  else
    match remote_addr ctx with
    | Some a => if Py.truthy a then a else "unknown"
    | None => "unknown"
    end.

Definition build_short_url (ctx : Ctx) (code : string) : string :=
  let base_url :=
    Py.rstrip_slash
      (if Py.truthy (config_base_url ctx) then config_base_url ctx
       else host_url ctx) in
  base_url +:+ "/" +:+ code.

(** ** Windowed counters *)

Definition check_rate_limit (now : Z) (db : Db) (ip bucket : string)
    (window_seconds limit : Z) : Db * bool :=
  let row := rate_limits db !! (ip, bucket) in
  let stale :=
    match row with
    | None => true
    | Some w => window_seconds <=? now - window_start w
    end in
  if stale then
    let window_start' := now in
    let count' := 1 in
    (set_rate_limits db
       (<[(ip, bucket) := {| window_start := window_start'; count := count' |}]>
          (rate_limits db)),
     count' <=? limit)
  else
    let count' := from_option count 0 row + 1 in
    (set_rate_limits db
       (alter (fun w => {| window_start := window_start w; count := count' |})
          (ip, bucket) (rate_limits db)),
     count' <=? limit).

Definition is_spam_submission (now : Z) (db : Db) (ip original_url : string)
    : Db * bool :=
  let row := spam_submissions db !! (ip, original_url) in
  let stale :=
    match row with
    | None => true
    | Some w => SPAM_WINDOW_SECONDS <=? now - window_start w
    end in
  if stale then
    let window_start' := now in
    let count' := 1 in
    (set_spam_submissions db
       (<[(ip, original_url) :=
            {| window_start := window_start'; count := count' |}]>
          (spam_submissions db)),
     SPAM_MAX_DUPLICATES <? count')
  else
    let count' := from_option count 0 row + 1 in
    (set_spam_submissions db
       (alter (fun w => {| window_start := window_start w; count := count' |})
          (ip, original_url) (spam_submissions db)),
     SPAM_MAX_DUPLICATES <? count').

(** The decorator: [rate_limit(bucket)(func)]. *)
Definition rate_limit (bucket : string) (func : View) : View :=
  fun ctx db =>
    match RATE_LIMITS bucket with
    | None => func ctx db
    | Some config =>
        let ip := get_client_ip ctx in
        let '(db, allowed) :=
          check_rate_limit (time_rate ctx) db ip bucket
            (rc_window config) (rc_limit config) in
        if negb allowed then
          ((JsonError "Rate limit exceeded. Try again later.", 429), db)
        else func ctx db
    end.

(** ** Allocation of codes *)

(** What the two insert functions ask of the [sqlite3.Connection] they
    are given.  Each statement returns the state of the store after it:
    between two statements of a request other connections may have
    committed, so an [INSERT] can break the uniqueness constraint after
    a [SELECT] that found nothing. *)
Record Connection (St : Type) := {
  (** [db.execute("SELECT 1 FROM urls WHERE code = ?", (code,)).fetchone()]:
      whether a row came back *)
  conn_code_exists : St -> string -> bool * St;
  (** the [INSERT INTO urls ...] and the [commit]: [false] is
      [sqlite3.IntegrityError] *)
  conn_insert : St -> string -> string -> Z -> Z -> bool * St
}.
Arguments conn_code_exists {St} _ _ _.
Arguments conn_insert {St} _ _ _ _ _ _.

(** The [for _ in range(10)] loop of [insert_unique_url]: [n] turns are
    left and [i] values have been drawn so far. *)
Fixpoint insert_unique_loop_on {St : Type} (conn : Connection St) (n i : nat)
    (draws : nat -> Z) (db : St) (original_url : string)
    (created_at expires_at : Z) : option string * St :=
  match n with
  | O => (None, db)
  | S n' =>
      let code := generate_code (draws i) in
      let '(exists_, db) := conn_code_exists conn db code in
      if exists_ then
        insert_unique_loop_on conn n' (S i) draws db original_url
          created_at expires_at
      else
        let '(inserted, db) :=
          conn_insert conn db code original_url created_at expires_at in
        if inserted then (Some code, db)
        else
          insert_unique_loop_on conn n' (S i) draws db original_url
            created_at expires_at
  end.

Definition insert_unique_url_on {St : Type} (conn : Connection St)
    (draws : nat -> Z) (db : St) (original_url : string)
    (created_at expires_at : Z) : option string * St :=
  insert_unique_loop_on conn 10 0 draws db original_url created_at expires_at.

Definition insert_custom_url_on {St : Type} (conn : Connection St) (db : St)
    (code original_url : string) (created_at expires_at : Z)
    : option string * St :=
  let '(exists_, db) := conn_code_exists conn db code in
  if exists_ then (None, db)
  else
    let '(inserted, db) :=
      conn_insert conn db code original_url created_at expires_at in
    if inserted then (Some code, db) else (None, db).

(** The connection of a request that no other connection interferes
    with: the statements act on the tables of [Db]. *)
Definition own_connection : Connection Db :=
  {| conn_code_exists db code :=
       (match Sql.select_by_code db code with Some _ => true | None => false end,
        db);
     conn_insert db code original_url created_at expires_at :=
       match Sql.insert_url db code original_url created_at expires_at with
       | Some db' => (true, db')
       | None => (false, db)
       end |}.

(** The two functions as [shorten] calls them, on the connection of the
    request. *)
Definition insert_unique_loop (n i : nat) (draws : nat -> Z) (db : Db)
    (original_url : string) (created_at expires_at : Z) : option string * Db :=
  insert_unique_loop_on own_connection n i draws db original_url
    created_at expires_at.

Definition insert_unique_url (draws : nat -> Z) (db : Db)
    (original_url : string) (created_at expires_at : Z) : option string * Db :=
  insert_unique_url_on own_connection draws db original_url
    created_at expires_at.

Definition insert_custom_url (db : Db) (code original_url : string)
    (created_at expires_at : Z) : option string * Db :=
  insert_custom_url_on own_connection db code original_url
    created_at expires_at.

(** One turn of the retry in the spec's words: insert the candidate if
    it is absent; [false] is a conflict, of either kind. *)
Definition insert_if_absent {St : Type} (conn : Connection St) (db : St)
    (code original_url : string) (created_at expires_at : Z) : bool * St :=
  let '(exists_, db) := conn_code_exists conn db code in
  if exists_ then (false, db)
  else conn_insert conn db code original_url created_at expires_at.

(** The state of the store after the turns [i], ..., [i + k - 1] have
    all met a conflict. *)
Fixpoint after_conflicts {St : Type} (conn : Connection St) (k i : nat)
    (draws : nat -> Z) (db : St) (original_url : string)
    (created_at expires_at : Z) : St :=
  match k with
  | O => db
  | S k' =>
      after_conflicts conn k' (S i) draws
        (insert_if_absent conn db (generate_code (draws i)) original_url
           created_at expires_at).2
        original_url created_at expires_at
  end.

(** ** The payload *)

(** [(v or "").strip()] for a JSON value [v]: [None] is the
    [AttributeError] raised for a true value that is no string. *)
Definition or_empty_strip (v : Json) : option string :=
  match v with
  | JNull => Some (Py.strip "")
  | JString s => Some (Py.strip (if Py.truthy s then s else ""))
  | JOther true => None
  | JOther false => Some (Py.strip "")
  end.

(** The first three statements of [shorten]: the values of
    [original_url] and [custom_code], or [None] when [payload.get] or
    [strip] raises [AttributeError]. *)
Definition read_payload (ctx : Ctx) : option (string * string) :=
  match json_body ctx with
  | JNotObject => None
  | JObject url code =>
      match or_empty_strip url with
      | None => None
      | Some original_url =>
          match or_empty_strip code with
          | None => None
          | Some custom_code => Some (original_url, custom_code)
          end
      end
  end.

(** ** The views *)

(** What [urllib.parse.urlparse] computes, as far as [validate_url]
    reads it. *)
Record ParseResult := { scheme : string; netloc : string }.

(** A call that returns or raises [ValueError]. *)
Inductive Raising (A : Type) :=
  | Returned (a : A)
  | ValueError.
Arguments Returned {A} a.
Arguments ValueError {A}.

Definition created_response (ctx : Ctx) (code original_url : string)
    (expires_at : Z) : Response :=
  (JsonCreated code original_url (build_short_url ctx code) expires_at, 201).

Definition not_found (code : string) : Response := (NotFoundPage code, 404).

Section Views.

(** [urllib.parse.urlparse] is a library function: the views are
    defined for any behaviour of it. *)
Variable urlparse : string -> Raising ParseResult.

Definition validate_url (url : string) : Raising (option string) :=
  if negb (Py.truthy url) then Returned (Some "Please enter a URL.")
  else if MAX_URL_LENGTH <? Py.len url then Returned (Some "URL is too long.")
  else
    match urlparse url with
    | ValueError => ValueError
    | Returned parsed =>
        if negb (bool_decide (scheme parsed = "http")
                 || bool_decide (scheme parsed = "https")) then
          Returned (Some "URL must start with http:// or https://.")
        else if negb (Py.truthy (netloc parsed)) then
          Returned (Some "URL must include a valid domain.")
        else Returned None
    end.

(** The body of [shorten], under its decorator.  An exception that
    leaves the view is Flask's 500 response. *)
Definition shorten : View := fun ctx db =>
  match read_payload ctx with
  | None => ((InternalServerError, 500), db)
  | Some (original_url, custom_code) =>
  match validate_url original_url with
  | ValueError => ((InternalServerError, 500), db)
  | Returned (Some error) => ((JsonError error, 400), db)
  | Returned None =>
      match (if Py.truthy custom_code then validate_custom_code custom_code
             else None) with
      | Some code_error => ((JsonError code_error, 400), db)
      | None =>
          let '(db, spam) :=
            is_spam_submission (time_spam ctx) db (get_client_ip ctx)
              original_url in
          if spam then
            ((JsonError "Too many repeated submissions. Try again later.",
              429), db)
          else
            match Sql.select_by_original_url db original_url with
            | Some existing =>
                ((JsonExisting (u_code existing) (u_original_url existing)
                    (build_short_url ctx (u_code existing))
                    "This URL was already shortened.", 200), db)
            | None =>
                let created_at := isoformat_seconds (utcnow_created ctx) in
                let expires_at :=
                  isoformat_seconds
                    (utcnow_expires ctx + timedelta_hours EXPIRATION_HOURS) in
                if Py.truthy custom_code then
                  match insert_custom_url db custom_code original_url
                          created_at expires_at with
                  | (None, db) =>
                      ((JsonError
                          "This short code is already taken. Please choose another one.",
                        409), db)
                  | (Some code, db) =>
                      (created_response ctx code original_url expires_at, db)
                  end
                else
                  match insert_unique_url (randbelow ctx) db original_url
                          created_at expires_at with
                  | (Some code, db) =>
                      if Py.truthy code then
                        (created_response ctx code original_url expires_at, db)
                      else
                        ((JsonError "Unable to generate a unique short code.",
                          409), db)
                  | (None, db) =>
                      ((JsonError "Unable to generate a unique short code.",
                        409), db)
                  end
            end
      end
  end
  end.

(** [POST /shorten]: the view as registered, decorator included. *)
Definition route_shorten : View := rate_limit "shorten" shorten.

End Views.

(** [redirect(location, code=302)]: the response gets the header
    [Location], and setting a header to a value with a carriage return
    or a line feed raises [ValueError]. *)
Definition redirect (location : string) : Raising Response :=
  if Py.char_in "013" location || Py.char_in "010" location then ValueError
  else Returned (Redirect location, 302).

(** The body of [follow], under its decorator.  The click is committed
    before the redirect is built. *)
Definition follow : View := fun ctx db =>
  let code := path_code ctx in
  if negb (Py.truthy code) || (32 <? Py.len code) then (not_found code, db)
  else
    match Sql.select_by_code db code with
    | None => (not_found code, db)
    | Some row =>
        let expires_at := fromisoformat (u_expires_at row) in
        if expires_at <? utcnow_follow ctx then
          (not_found code, Sql.delete_by_id db (u_id row))
        else
          let db := Sql.bump_click_count db (u_id row) in
          match redirect (u_original_url row) with
          | Returned response => (response, db)
          | ValueError => ((InternalServerError, 500), db)
          end
    end.

(** What [follow] answers for a live row with the URL [location]. *)
Definition redirect_answer (location : string) : Response :=
  match redirect location with
  | Returned response => response
  | ValueError => (InternalServerError, 500)
  end.

(** The string has no carriage return and no line feed. *)
Definition single_line (s : string) : Prop :=
  Py.char_in "013" s = false ∧ Py.char_in "010" s = false.

(** [GET /<code>]: the view as registered, decorator included. *)
Definition route_follow : View := rate_limit "follow" follow.

(** ** Sequences of requests *)

Inductive Request :=
  | PostShorten (ctx : Ctx)
  | GetCode (ctx : Ctx).

Definition serve (urlparse : string -> Raising ParseResult) (r : Request)
    (db : Db) : Response * Db :=
  match r with
  | PostShorten ctx => route_shorten urlparse ctx db
  | GetCode ctx => route_follow ctx db
  end.

(** The database after serving the requests of [rs] in order. *)
Fixpoint serve_all (urlparse : string -> Raising ParseResult)
    (rs : list Request) (db : Db) : Db :=
  match rs with
  | [] => db
  | r :: rs' => serve_all urlparse rs' (snd (serve urlparse r db))
  end.

(** The answers of [check_rate_limit] to calls for one key at the times
    [ts], and the database after them. *)
Fixpoint rate_checks (ts : list Z) (db : Db) (ip bucket : string)
    (window_seconds limit : Z) : list bool * Db :=
  match ts with
  | [] => ([], db)
  | t :: ts' =>
      let '(db1, allowed) := check_rate_limit t db ip bucket window_seconds limit in
      let '(rest, db2) := rate_checks ts' db1 ip bucket window_seconds limit in
      (allowed :: rest, db2)
  end.

(** The database is consistent with the constraints of the schema:
    no two rows share a code, no two rows share an id. *)
Definition db_wf (db : Db) : Prop :=
  NoDup (map u_code (urls db)) ∧ NoDup (map u_id (urls db)).

(** The values of the variables [original_url] and [custom_code] of
    [shorten], once both are assigned (empty when that has failed). *)
Definition submitted_url (ctx : Ctx) : string :=
  match read_payload ctx with
  | Some (original_url, _) => original_url
  | None => ""
  end.

Definition submitted_code (ctx : Ctx) : string :=
  match read_payload ctx with
  | Some (_, custom_code) => custom_code
  | None => ""
  end.

(** The database after the spam check of [shorten], and its answer. *)
Definition spam_check (ctx : Ctx) (db : Db) : Db * bool :=
  is_spam_submission (time_spam ctx) db (get_client_ip ctx) (submitted_url ctx).

(** The two timestamps [shorten] stores. *)
Definition created_at_of (ctx : Ctx) : Z :=
  isoformat_seconds (utcnow_created ctx).

Definition expires_at_of (ctx : Ctx) : Z :=
  isoformat_seconds (utcnow_expires ctx + timedelta_hours EXPIRATION_HOURS).

Section Outcomes.

Variable urlparse : string -> Raising ParseResult.

Implicit Types (db : Db) (ctx : Ctx) (r : UrlRow).

(** The request passes both validations of [shorten]. *)
Definition validated ctx : Prop :=
  validate_url urlparse (submitted_url ctx) = Returned None
  ∧ validate_custom_code (submitted_code ctx) = None.

(** Every way [shorten] can end. *)
Inductive ShortenOutcome ctx db : Response * Db → Prop :=
  | SoInvalid error :
      is_Some (read_payload ctx)
      ∧ (validate_url urlparse (submitted_url ctx) = Returned (Some error)
         ∨ (validate_url urlparse (submitted_url ctx) = Returned None
            ∧ validate_custom_code (submitted_code ctx) = Some error)) →
      ShortenOutcome ctx db ((JsonError error, 400), db)
  | SoRaised :
      validate_url urlparse (submitted_url ctx) = ValueError →
      ShortenOutcome ctx db ((InternalServerError, 500), db)
  | SoSpam :
      validated ctx → (spam_check ctx db).2 = true →
      ShortenOutcome ctx db
        ((JsonError "Too many repeated submissions. Try again later.", 429),
         (spam_check ctx db).1)
  | SoExisting r :
      validated ctx → (spam_check ctx db).2 = false →
      Sql.select_by_original_url db (submitted_url ctx) = Some r →
      ShortenOutcome ctx db
        ((JsonExisting (u_code r) (u_original_url r)
            (build_short_url ctx (u_code r))
            "This URL was already shortened.", 200),
         (spam_check ctx db).1)
  | SoTaken r :
      validated ctx → (spam_check ctx db).2 = false →
      Sql.select_by_original_url db (submitted_url ctx) = None →
      submitted_code ctx ≠ "" →
      Sql.select_by_code db (submitted_code ctx) = Some r →
      ShortenOutcome ctx db
        ((JsonError
            "This short code is already taken. Please choose another one.",
          409), (spam_check ctx db).1)
  | SoExhausted :
      validated ctx → (spam_check ctx db).2 = false →
      Sql.select_by_original_url db (submitted_url ctx) = None →
      submitted_code ctx = "" →
      (∀ j, (j < 10)%nat →
         is_Some (Sql.select_by_code db (generate_code (randbelow ctx j)))) →
      ShortenOutcome ctx db
        ((JsonError "Unable to generate a unique short code.", 409),
         (spam_check ctx db).1)
  | SoCreated code :
      validated ctx → (spam_check ctx db).2 = false →
      Sql.select_by_original_url db (submitted_url ctx) = None →
      (submitted_code ctx ≠ "" ∧ code = submitted_code ctx
       ∨ submitted_code ctx = ""
         ∧ ∃ k, (k < 10)%nat ∧ code = generate_code (randbelow ctx k)
                ∧ ∀ j, (j < k)%nat →
                    is_Some (Sql.select_by_code db
                               (generate_code (randbelow ctx j)))) →
      Sql.select_by_code db code = None →
      ShortenOutcome ctx db
        (created_response ctx code (submitted_url ctx) (expires_at_of ctx),
         set_urls (spam_check ctx db).1
           (urls db ++ [Sql.new_row db code (submitted_url ctx)
                          (created_at_of ctx) (expires_at_of ctx)]))
  | SoUnreadable :
      read_payload ctx = None →
      ShortenOutcome ctx db ((InternalServerError, 500), db).

(** The answers of [shorten] to the requests of [ctxs] served in
    order, and the database after them. *)
Fixpoint submissions (ctxs : list Ctx) (db : Db) : list Response * Db :=
  match ctxs with
  | [] => ([], db)
  | ctx :: ctxs' =>
      let '(resp, db1) := shorten urlparse ctx db in
      let '(rest, db2) := submissions ctxs' db1 in
      (resp :: rest, db2)
  end.

End Outcomes.

(** The link of code [c] to [u], expiring at [e], is in the table. *)
Definition holds_link (db : Db) (c u : string) (e : Z) : Prop :=
  ∃ r, Sql.select_by_code db c = Some r
       ∧ u_original_url r = u ∧ u_expires_at r = e.

(** The answer of the spam check. *)
Definition spam_response : Response :=
  (JsonError "Too many repeated submissions. Try again later.", 429).

(** What the code requires of a custom code that is given: 3 to 32
    characters, each of them alphanumeric for Python, a hyphen or an
    underscore. *)
Definition acceptable_code (code : string) : Prop :=
  3 ≤ Py.len code ∧ Py.len code ≤ 32
  ∧ ∀ c, Py.char_in c code = true →
      Py.isalnum c = true ∨ c = "-"%char ∨ c = "_"%char.

(** The class [[A-Za-z0-9_-]]. *)
Definition is_code_char_ascii (c : ascii) : bool :=
  is_base62_char c || Py.char_in c "-_".

(** The counting rule in the spec's words: without a window, or with
    one that is [W] seconds old or more, a window starts at [now] with
    count 1; otherwise the count of the running window goes up by one. *)
Definition next_window (now W : Z) (row : option Window) : Window :=
  match row with
  | Some w =>
      if decide (now - window_start w < W)
      then {| window_start := window_start w; count := count w + 1 |}
      else {| window_start := now; count := 1 |}
  | None => {| window_start := now; count := 1 |}
  end.

(** The request [r] leaves the link of code [c] with expiry [e] in
    place: it is not a [GET] of [c] after the link has expired. *)
Definition keeps_link (c : string) (e : Z) (r : Request) : Prop :=
  match r with
  | GetCode ctx => path_code ctx = c → utcnow_follow ctx ≤ fromisoformat e
  | PostShorten _ => True
  end.

(** The values of [secrets.randbelow(62 ** CODE_LENGTH)] are in range. *)
Definition draws_in_range (ctx : Ctx) : Prop :=
  ∀ i, 0 ≤ randbelow ctx i < 62 ^ 7.

(** Every stored code is one that [follow] looks up: not empty and of
    at most 32 characters. *)
Definition codes_ok (db : Db) : Prop :=
  ∀ r, r ∈ urls db → Py.truthy (u_code r) = true ∧ Py.len (u_code r) ≤ 32.

(** The environment of a request keeps the contract of the random
    source. *)
Definition request_ok (rq : Request) : Prop :=
  match rq with
  | PostShorten ctx => draws_in_range ctx
  | GetCode _ => True
  end.

(** The header of a request counts when it is there and not empty. *)
Definition forwarded_value (ctx : Ctx) : option string :=
  match x_forwarded_for ctx with
  | Some h => if Py.truthy h then Some h else None
  | None => None
  end.

Definition peer_value (ctx : Ctx) : option string :=
  match remote_addr ctx with
  | Some a => if Py.truthy a then Some a else None
  | None => None
  end.

(** ** Notions used to state further properties *)

(** The position of the first [c] in [s], which is what [s.index(c)]
    gives when [c] occurs in [s]; the length of [s] when it does not. *)
Fixpoint index_in (c : ascii) (s : string) : Z :=
  match s with
  | EmptyString => 0
  | String d s' => if decide (c = d) then 0 else 1 + index_in c s'
  end.

(** The number a string of base-62 digits stands for, read from the
    left with the positions of [BASE62_ALPHABET] as digit values. *)
Fixpoint base62_value_from (acc : Z) (s : string) : Z :=
  match s with
  | EmptyString => acc
  | String c s' => base62_value_from (acc * 62 + index_in c BASE62_ALPHABET) s'
  end.

Definition base62_value (s : string) : Z := base62_value_from 0 s.

(** No two rows of [urls] are for the same URL. *)
Definition one_code_per_url (db : Db) : Prop :=
  NoDup (map u_original_url (urls db)).

(** The request [ctx] with another JSON payload. *)
Definition set_payload (ctx : Ctx) (body : JsonBody) : Ctx :=
  {| json_body := body; path_code := path_code ctx;
     x_forwarded_for := x_forwarded_for ctx; remote_addr := remote_addr ctx;
     host_url := host_url ctx; config_base_url := config_base_url ctx;
     time_rate := time_rate ctx; time_spam := time_spam ctx;
     utcnow_created := utcnow_created ctx;
     utcnow_expires := utcnow_expires ctx;
     utcnow_follow := utcnow_follow ctx;
     randbelow := randbelow ctx |}.

(** The answers of [follow] to the requests of [ctxs] served in order,
    and the database after them. *)
Fixpoint resolves (ctxs : list Ctx) (db : Db) : list Response * Db :=
  match ctxs with
  | [] => ([], db)
  | ctx :: ctxs' =>
      let '(resp, db1) := follow ctx db in
      let '(rest, db2) := resolves ctxs' db1 in
      (resp :: rest, db2)
  end.

(** The base URL that [build_short_url] starts from. *)
Definition configured_base (ctx : Ctx) : string :=
  if Py.truthy (config_base_url ctx) then config_base_url ctx
  else host_url ctx.

(** ** A parser to run the views on examples

    The part of [urllib.parse.urlsplit] that yields the scheme and the
    network location, for ASCII input without bracketed hosts.  It is
    used only to evaluate the views on concrete requests; every general
    statement below holds for any parser. *)

Module Urllib.

Definition scheme_char (c : ascii) : bool :=
  Py.islower_ascii c || Py.isupper_ascii c || Py.isdigit_ascii c
  || Py.char_in c "+-.".

Definition lower (c : ascii) : ascii :=
  if Py.isupper_ascii c then ascii_of_N (N_of_ascii c + 32) else c.

Fixpoint lower_str (s : string) : string :=
  match s with
  | EmptyString => EmptyString
  | String c s' => String (lower c) (lower_str s')
  end.

Fixpoint remove_chars (p : ascii -> bool) (s : string) : string :=
  match s with
  | EmptyString => EmptyString
  | String c s' => if p c then remove_chars p s' else String c (remove_chars p s')
  end.

(** [s[:i]] and [s[i+1:]] for [i = s.find(c)], when [c] occurs. *)
Fixpoint partition_at (c : ascii) (s : string) : option (string * string) :=
  match s with
  | EmptyString => None
  | String d s' =>
      if decide (d = c) then Some (EmptyString, s')
      else
        match partition_at c s' with
        | Some (a, b) => Some (String d a, b)
        | None => None
        end
  end.

(** The text before the first of [/], [?] and [#]. *)
Fixpoint until_delim (s : string) : string :=
  match s with
  | EmptyString => EmptyString
  | String c s' =>
      if Py.char_in c "/?#" then EmptyString else String c (until_delim s')
  end.

Definition split_scheme (url : string) : string * string :=
  match url, partition_at ":" url with
  | String c0 _, Some (String a0 a as pre, rest) =>
      if (Py.islower_ascii c0 || Py.isupper_ascii c0) && Py.all scheme_char pre
      then (lower_str pre, rest)
      else (EmptyString, url)
  | _, _ => (EmptyString, url)
  end.

Definition urlparse (url : string) : Raising ParseResult :=
  let url := Py.lstrip_with (fun c => Py.ord c <=? 32) url in
  let url := remove_chars (fun c => Py.char_in c
               (String "009" (String "010" (String "013" EmptyString)))) url in
  let '(sch, rest) := split_scheme url in
  match rest with
  | String "/" (String "/" after) =>
      let loc := until_delim after in
      if xorb (Py.char_in "[" loc) (Py.char_in "]" loc) then ValueError
      else Returned {| scheme := sch; netloc := loc |}
  | _ => Returned {| scheme := sch; netloc := EmptyString |}
  end.

End Urllib.

(** ** Concrete requests and databases used in the examples *)

Module Ex.

Definition empty_db : Db :=
  {| urls := []; rate_limits := ∅; spam_submissions := ∅ |}.

(** The value of a key of the payload: absent, or a string. *)
Definition field (v : option string) : Json :=
  match v with
  | Some s => JString s
  | None => JNull
  end.

(** A request from 10.0.0.1 at second [t] (all clocks agree). *)
Definition request (url code : option string) (path : string) (t : Z) : Ctx :=
  {| json_body := JObject (field url) (field code); path_code := path;
     x_forwarded_for := None; remote_addr := Some "10.0.0.1";
     host_url := "http://localhost:5000/"; config_base_url := "";
     time_rate := t; time_spam := t;
     utcnow_created := t * 1000000; utcnow_expires := t * 1000000;
     utcnow_follow := t * 1000000;
     randbelow := fun i => Z.of_nat i mod 62 ^ 7 |}.

Definition post (url : string) (t : Z) : Ctx :=
  request (Some url) None "" t.

Definition post_custom (url code : string) (t : Z) : Ctx :=
  request (Some url) (Some code) "" t.

Definition get (code : string) (t : Z) : Ctx :=
  request None None code t.

(** 10.0.0.1 has used up its ten [shorten] calls of the window that
    began at second 1000. *)
Definition busy_db : Db :=
  {| urls := [];
     rate_limits :=
       {[ ("10.0.0.1", "shorten") := {| window_start := 1000; count := 10 |} ]};
     spam_submissions := ∅ |}.

(** The link made at second 1000 for https://example.com/a; it
    expires at second 87400. *)
Definition link : UrlRow :=
  {| u_id := 1; u_code := "0000000";
     u_original_url := "https://example.com/a";
     u_created_at := 1000; u_expires_at := 87400; u_click_count := 0 |}.

Definition one_link_db : Db :=
  {| urls := [link]; rate_limits := ∅; spam_submissions := ∅ |}.

(** The custom code "caf" followed by U+00E9, a Latin-1 letter. *)
Definition cafe : string :=
  String "c" (String "a" (String "f" (String "233" EmptyString))).

(** A [POST] for which the random source keeps giving 0, the value
    of the code of [link]. *)
Definition stuck_post (url : string) (t : Z) : Ctx :=
  {| json_body := JObject (JString url) JNull; path_code := "";
     x_forwarded_for := None; remote_addr := Some "10.0.0.1";
     host_url := "http://localhost:5000/"; config_base_url := "";
     time_rate := t; time_spam := t;
     utcnow_created := t * 1000000; utcnow_expires := t * 1000000;
     utcnow_follow := t * 1000000;
     randbelow := fun _ => 0 |}.

(** A URL with a line feed inside: "https://example.com/a", U+000A,
    "b". *)
Definition two_lines : string :=
  "https://example.com/a" +:+ String "010" "b".

(** The link for [two_lines], made at second 1000. *)
Definition two_lines_link : UrlRow :=
  {| u_id := 1; u_code := "0000000"; u_original_url := two_lines;
     u_created_at := 1000; u_expires_at := 87400; u_click_count := 0 |}.

(** A connection with another writer: the state is the database and the
    rows the other connection commits just before the next [INSERT] of
    this one. *)
Definition racing : Connection (Db * list UrlRow) :=
  {| conn_code_exists st code :=
       (match Sql.select_by_code st.1 code with Some _ => true | None => false end,
        st);
     conn_insert st code original_url created_at expires_at :=
       let db := set_urls st.1 (urls st.1 ++ st.2) in
       match Sql.insert_url db code original_url created_at expires_at with
       | Some db' => (true, (db', []))
       | None => (false, (db, []))
       end |}.

(** A request whose [X-Forwarded-For] header is present and empty. *)
Definition empty_header : Ctx :=
  {| json_body := JObject JNull JNull; path_code := "";
     x_forwarded_for := Some ""; remote_addr := Some "10.0.0.1";
     host_url := "http://localhost:5000/"; config_base_url := "";
     time_rate := 0; time_spam := 0;
     utcnow_created := 0; utcnow_expires := 0; utcnow_follow := 0;
     randbelow := fun _ => 0 |}.

(** A request that came through two proxies. *)
Definition proxied : Ctx :=
  {| json_body := JObject JNull JNull; path_code := "";
     x_forwarded_for := Some " 203.0.113.7 , 10.0.0.2";
     remote_addr := Some "10.0.0.1";
     host_url := "http://localhost:5000/"; config_base_url := "";
     time_rate := 0; time_spam := 0;
     utcnow_created := 0; utcnow_expires := 0; utcnow_follow := 0;
     randbelow := fun _ => 0 |}.

End Ex.

(** * Properties *)

(** ** Code generator *)

Lemma join_app l1 l2 : Py.join (l1 ++ l2) = Py.join l1 +:+ Py.join l2.
Proof. induction l1 as [|c l1 IH]; simpl; [done | by rewrite IH]. Qed.

Lemma join_length l : String.length (Py.join l) = length l.
Proof. induction l as [|c l IH]; simpl; [done | by rewrite IH]. Qed.

Lemma all_join p l : Py.all p (Py.join l) = forallb p l.
Proof. induction l as [|c l IH]; simpl; [done | by destruct (p c)]. Qed.

Lemma div_eucl_62 v : Z.div_eucl v 62 = (v / 62, v mod 62).
Proof.
  unfold Z.div, Z.modulo. by destruct (Z.div_eucl v 62).
Qed.

(** The index used by the loop is always inside the alphabet, and the
    character found there is a base-62 digit. *)
Lemma alphabet_at_in_range r :
  0 ≤ r < 62 →
  String.get (Z.to_nat r) BASE62_ALPHABET = Some (alphabet_at r)
  ∧ is_base62_char (alphabet_at r) = true.
Proof.
  intros Hr.
  assert (Hall : forallb (fun n =>
            bool_decide (String.get n BASE62_ALPHABET
                         = Some (alphabet_at (Z.of_nat n)))
            && is_base62_char (alphabet_at (Z.of_nat n))) (seq 0 62) = true)
    by (vm_compute; reflexivity).
  rewrite forallb_forall in Hall.
  assert (Hin : In (Z.to_nat r) (seq 0 62)) by (apply in_seq; lia).
  specialize (Hall (Z.to_nat r) Hin).
  rewrite Z2Nat.id in Hall by lia.
  apply andb_prop in Hall as [H1 H2].
  split; [by apply bool_decide_eq_true in H1 | done].
Qed.

(** With [v < 2 ^ fuel] the loop stops because [value] reached 0, and
    what it appended are the significant digits of [v], least
    significant first. *)
Lemma base62_loop_digits n : ∀ v fuel chars,
  0 ≤ v < 62 ^ Z.of_nat n → v < 2 ^ Z.of_nat fuel →
  ∃ ds, digits62 n v = replicate (n - length ds) 0 ++ ds
        ∧ (length ds ≤ n)%nat
        ∧ base62_loop fuel v chars = chars ++ rev (map alphabet_at ds).
Proof.
  induction n as [|n IH]; intros v fuel chars Hv Hfuel.
  - assert (v = 0) by (simpl in Hv; lia). subst v.
    exists []. split_and!; [done | done |].
    destruct fuel; simpl; by rewrite app_nil_r.
  - destruct (decide (v = 0)) as [->|Hnz].
    + exists []. split_and!.
      * simpl length. rewrite Nat.sub_0_r, app_nil_r.
        clear. induction n as [|n IHn]; [done |].
        change (digits62 (S (S n)) 0) with (digits62 (S n) (0 / 62) ++ [0 mod 62]).
        change (0 / 62) with 0. rewrite IHn. change (0 mod 62) with 0.
        clear. generalize (S n). intros m.
        induction m as [|m IHm]; [done |]. simpl. by rewrite IHm.
      * simpl; lia.
      * destruct fuel; simpl; by rewrite app_nil_r.
    + destruct fuel as [|fuel]; [simpl in Hfuel; lia |].
      assert (Hq : 0 ≤ v / 62 < 62 ^ Z.of_nat n).
      { split; [apply Z.div_pos; lia |].
        apply Z.div_lt_upper_bound; [lia |].
        rewrite Nat2Z.inj_succ, Z.pow_succ_r in Hv by lia. lia. }
      assert (Hf : v / 62 < 2 ^ Z.of_nat fuel).
      { apply Z.div_lt_upper_bound; [lia |].
        rewrite Nat2Z.inj_succ, Z.pow_succ_r in Hfuel by lia. lia. }
      destruct (IH (v / 62) fuel (chars ++ [alphabet_at (v mod 62)]) Hq Hf)
        as (ds & Hds & Hlen & Hloop).
      exists (ds ++ [v mod 62]). split_and!.
      * simpl digits62. rewrite Hds, length_app. simpl length.
        rewrite <- app_assoc. do 2 f_equal. lia.
      * rewrite length_app. simpl. lia.
      * simpl base62_loop.
        replace (0 <? v) with true by (symmetry; apply Z.ltb_lt; lia).
        rewrite div_eucl_62, Hloop, map_app, rev_app_distr, <- app_assoc.
        done.
Qed.

Lemma base62_fuel_enough v : 0 < v → v < 2 ^ Z.of_nat (base62_fuel v).
Proof.
  intros Hv. unfold base62_fuel.
  rewrite Nat2Z.inj_succ, Z2Nat.id by apply Z.log2_nonneg.
  by apply Z.log2_spec.
Qed.

(** More fuel does not change the result of the loop: it has stopped. *)
Lemma base62_loop_enough v fuel k chars :
  0 ≤ v < 2 ^ Z.of_nat fuel →
  base62_loop (fuel + k) v chars = base62_loop fuel v chars.
Proof.
  revert v chars. induction fuel as [|fuel IH]; intros v chars Hv.
  - assert (v = 0) by (simpl in Hv; lia). subst v. by destruct k.
  - simpl. destruct (0 <? v) eqn:Hpos; [|done].
    rewrite div_eucl_62. apply IH.
    apply Z.ltb_lt in Hpos.
    split; [apply Z.div_pos; lia |].
    apply Z.div_lt_upper_bound; [lia |].
    rewrite Nat2Z.inj_succ, Z.pow_succ_r in Hv by lia. lia.
Qed.

Lemma digits62_length n v : length (digits62 n v) = n.
Proof.
  revert v. induction n as [|n IH]; intros v; [done |].
  simpl. rewrite length_app, IH. simpl. lia.
Qed.

Lemma digits62_range n v : Forall (fun d => 0 ≤ d < 62) (digits62 n v).
Proof.
  revert v. induction n as [|n IH]; intros v; simpl; [constructor |].
  apply Forall_app. split; [apply IH |].
  constructor; [apply Z.mod_pos_bound; lia | constructor].
Qed.

(** The digits are a positional representation of the value. *)
Lemma digits62_value n v :
  0 ≤ v < 62 ^ Z.of_nat n →
  fold_left (fun acc d => acc * 62 + d) (digits62 n v) 0 = v.
Proof.
  revert v. induction n as [|n IH]; intros v Hv.
  - simpl in *. lia.
  - simpl digits62. rewrite fold_left_app. simpl. rewrite IH.
    + pose proof (Z.div_mod v 62). lia.
    + split; [apply Z.div_pos; lia |].
      apply Z.div_lt_upper_bound; [lia |].
      rewrite Nat2Z.inj_succ, Z.pow_succ_r in Hv by lia. lia.
Qed.

Lemma base62_encode_padded v :
  0 ≤ v < 62 ^ 7 → base62_encode v CODE_LENGTH = base62_padded 7 v.
Proof.
  intros Hv. unfold base62_encode.
  destruct (v =? 0) eqn:Hz.
  - apply Z.eqb_eq in Hz. subst v. by vm_compute.
  - apply Z.eqb_neq in Hz.
    destruct (base62_loop_digits 7 v (base62_fuel v) [])
      as (ds & Hds & Hlen & Hloop); [done | apply base62_fuel_enough; lia |].
    rewrite Hloop. simpl app. rewrite rev_involutive.
    unfold base62_padded, Py.len, Py.repeat_char, CODE_LENGTH.
    rewrite Hds, join_length, length_map, map_app, join_app.
    destruct (Z.of_nat (length ds) <? 7) eqn:Hlt.
    + f_equal. replace (Z.to_nat (7 - Z.of_nat (length ds)))
        with (7 - length ds)%nat by lia.
      f_equal. generalize (7 - length ds)%nat. intros m.
      induction m as [|m IHm]; [done |]. simpl. by rewrite IHm.
    + apply Z.ltb_ge in Hlt.
      replace (7 - length ds)%nat with 0%nat by lia. done.
Qed.

Lemma base62_padded_length n v : String.length (base62_padded n v) = n.
Proof.
  unfold base62_padded. by rewrite join_length, length_map, digits62_length.
Qed.

Lemma base62_padded_chars n v : Py.all is_base62_char (base62_padded n v) = true.
Proof.
  unfold base62_padded. rewrite all_join, forallb_forall.
  intros c [d [<- Hd]]%in_map_iff.
  pose proof (digits62_range n v) as Hr.
  rewrite Forall_forall in Hr.
  apply alphabet_at_in_range, Hr. by apply list_elem_of_In.
Qed.

Lemma generate_code_length v :
  0 ≤ v < 62 ^ 7 → String.length (generate_code v) = 7%nat.
Proof.
  intros Hv. unfold generate_code.
  by rewrite (base62_encode_padded v Hv), base62_padded_length.
Qed.

(** C8: for every value in [0, 62^7) the code generator's base-62
    encoding is the 7-digit positional base-62 representation of the
    value over the alphabet 0-9A-Za-z (the minimal representation,
    left-padded with "0"), so it has exactly 7 characters, all of them in
    [0-9A-Za-z]; the value 0 encodes as "0" before padding. *)
Theorem generate_code_base62 (v : Z) :
  0 ≤ v < 62 ^ 7 →
  generate_code v = base62_padded 7 v
  ∧ fold_left (fun acc d => acc * 62 + d) (digits62 7 v) 0 = v
  ∧ Forall (fun d => 0 ≤ d < 62) (digits62 7 v)
  ∧ String.length (generate_code v) = 7%nat
  ∧ Py.all is_base62_char (generate_code v) = true
  ∧ base62_encode 0 0 = "0".
Proof.
  intros Hv.
  split_and!; [by apply base62_encode_padded | by apply (digits62_value 7)
              | apply digits62_range | by apply generate_code_length | | done].
  unfold generate_code.
  rewrite (base62_encode_padded v Hv). apply base62_padded_chars.
Qed.

Lemma generate_code_base62_witness :
  0 ≤ 238327 < 62 ^ 7 ∧ generate_code 238327 = "0000zzz".
Proof.
  split; [lia |].
  destruct (generate_code_base62 238327 ltac:(lia)) as [-> _].
  reflexivity.
Defined.

(** ** Windowed counters *)

Section Counters.

Implicit Types (db : Db) (ip bucket : string) (w : Window).

(** [check_rate_limit] writes one row of [rate_limits] and nothing else. *)
Lemma check_rate_limit_frame now db ip bucket W L :
  let db' := (check_rate_limit now db ip bucket W L).1 in
  urls db' = urls db
  ∧ spam_submissions db' = spam_submissions db
  ∧ ∀ k, k ≠ (ip, bucket) → rate_limits db' !! k = rate_limits db !! k.
Proof.
  unfold check_rate_limit.
  destruct (rate_limits db !! (ip, bucket)) as [w|] eqn:Hrow; simpl.
  - destruct (W <=? now - window_start w); simpl; split_and!; try done;
      intros k Hk; [by rewrite lookup_insert_ne | by rewrite lookup_alter_ne].
  - split_and!; try done. intros k Hk. by rewrite lookup_insert_ne.
Qed.

(** No window, or a window that has run out: reset. *)
Lemma check_rate_limit_reset now db ip bucket W L :
  (rate_limits db !! (ip, bucket) = None
   ∨ ∃ w, rate_limits db !! (ip, bucket) = Some w ∧ W ≤ now - window_start w) →
  check_rate_limit now db ip bucket W L
  = (set_rate_limits db
       (<[(ip, bucket) := {| window_start := now; count := 1 |}]> (rate_limits db)),
     bool_decide (1 ≤ L)).
Proof.
  intros Hrow. unfold check_rate_limit.
  assert (Hle : (1 <=? L) = bool_decide (1 ≤ L)).
  { case_bool_decide; [by apply Z.leb_le | by apply Z.leb_gt; lia]. }
  destruct Hrow as [-> | (w & -> & Hstale)]; simpl.
  - by rewrite Hle.
  - replace (W <=? now - window_start w) with true
      by (symmetry; by apply Z.leb_le).
    by rewrite Hle.
Qed.

(** A running window: the count goes up by one, the start stays. *)
Lemma check_rate_limit_incr now db ip bucket W L w :
  rate_limits db !! (ip, bucket) = Some w →
  now - window_start w < W →
  check_rate_limit now db ip bucket W L
  = (set_rate_limits db
       (<[(ip, bucket) := {| window_start := window_start w; count := count w + 1 |}]>
          (rate_limits db)),
     bool_decide (count w + 1 ≤ L)).
Proof.
  intros Hrow Hrun. unfold check_rate_limit. rewrite Hrow. simpl.
  replace (W <=? now - window_start w) with false
    by (symmetry; apply Z.leb_gt; lia).
  f_equal.
  - f_equal. apply map_eq. intros k.
    destruct (decide (k = (ip, bucket))) as [->|Hk].
    + by rewrite lookup_alter_eq, lookup_insert_eq, Hrow.
    + by rewrite lookup_alter_ne, lookup_insert_ne.
  - case_bool_decide; [by apply Z.leb_le | by apply Z.leb_gt; lia].
Qed.

(** Calls inside a running window count on from where it stands. *)
Lemma rate_checks_running ts : ∀ db ip bucket W L t1 c,
  rate_limits db !! (ip, bucket) = Some {| window_start := t1; count := c |} →
  Forall (fun t => t - t1 < W) ts →
  ∃ db',
    rate_checks ts db ip bucket W L
    = (map (fun i => bool_decide (c + 1 + Z.of_nat i ≤ L)) (seq 0 (length ts)), db')
    ∧ rate_limits db' !! (ip, bucket)
      = Some {| window_start := t1; count := c + Z.of_nat (length ts) |}.
Proof.
  induction ts as [|t ts IH]; intros db ip bucket W L t1 c Hrow Hts.
  - exists db. simpl. split; [done |]. rewrite Hrow. do 2 f_equal. lia.
  - apply Forall_cons in Hts as [Ht Hts].
    simpl rate_checks.
    rewrite (check_rate_limit_incr t db ip bucket W L _ Hrow Ht). simpl.
    edestruct (IH (set_rate_limits db
                (<[(ip, bucket) := {| window_start := t1; count := c + 1 |}]>
                   (rate_limits db))) ip bucket W L t1 (c + 1))
      as (db' & Hrun & Hrow'); [apply lookup_insert_eq | done |].
    exists db'. rewrite Hrun. split.
    + f_equal. simpl. f_equal; [apply bool_decide_ext; lia |].
      rewrite <- seq_shift, map_map. apply map_ext. intros i.
      apply bool_decide_ext. lia.
    + rewrite Hrow'. do 2 f_equal. simpl length. lia.
Qed.

End Counters.

(** C2: one call of the rate-limit counter either opens a window (no row
    for the key, or [now - window_start >= W]: the row becomes
    [(now, 1)] and the call is allowed iff [1 <= L]) or counts in place
    (the count goes up by one, the start is kept, and the call is allowed
    iff the new count is at most [L]).  Hence, for calls on one key that
    begin with a call opening a window at [now] and go on within [W]
    seconds of it, the i-th call is allowed iff [i <= L], and the first
    call once the window has fully elapsed is allowed again.  The bucket
    [shorten] has limit 10 and window 60, so the 11th request is denied. *)
Theorem check_rate_limit_windows (db : Db) (ip bucket : string)
    (W L now : Z) (ts : list Z) (later : Z) :
  let key := (ip, bucket) in
  let opens :=
    match rate_limits db !! key with
    | None => True
    | Some w => W ≤ now - window_start w
    end in
  (opens →
   check_rate_limit now db ip bucket W L
   = (set_rate_limits db
        (<[key := {| window_start := now; count := 1 |}]> (rate_limits db)),
      bool_decide (1 ≤ L)))
  ∧ (∀ w, rate_limits db !! key = Some w → now - window_start w < W →
     check_rate_limit now db ip bucket W L
     = (set_rate_limits db
          (<[key := {| window_start := window_start w; count := count w + 1 |}]>
             (rate_limits db)),
        bool_decide (count w + 1 ≤ L)))
  ∧ (opens → Forall (fun t => t - now < W) ts → W ≤ later - now →
     ∃ db',
       rate_checks (now :: ts) db ip bucket W L
       = (map (fun i => bool_decide (Z.of_nat i + 1 ≤ L)) (seq 0 (S (length ts))),
          db')
       ∧ (check_rate_limit later db' ip bucket W L).2 = bool_decide (1 ≤ L))
  ∧ RATE_LIMITS "shorten" = Some {| rc_limit := 10; rc_window := 60 |}.
Proof.
  cbv zeta.
  set (key := (ip, bucket)).
  set (opens := match rate_limits db !! key with
                | None => True
                | Some w => W ≤ now - window_start w
                end).
  assert (Hopen : opens →
    rate_limits db !! key = None
    ∨ ∃ w, rate_limits db !! key = Some w ∧ W ≤ now - window_start w).
  { unfold opens. destruct (rate_limits db !! key) as [w|]; eauto. }
  subst key.
  split_and!.
  - intros Ho. by apply check_rate_limit_reset, Hopen.
  - intros w Hrow Hrun. by apply check_rate_limit_incr.
  - intros Ho Hts Hlater. simpl rate_checks.
    rewrite (check_rate_limit_reset now db ip bucket W L (Hopen Ho)).
    cbv beta iota.
    edestruct (rate_checks_running ts
                 (set_rate_limits db
                    (<[(ip, bucket) := {| window_start := now; count := 1 |}]>
                       (rate_limits db))) ip bucket W L now 1)
      as (db' & Hrun & Hrow'); [apply lookup_insert_eq | done |].
    exists db'. rewrite Hrun. split.
    + f_equal. simpl. f_equal.
      rewrite <- seq_shift, map_map. apply map_ext. intros i.
      apply bool_decide_ext. lia.
    + rewrite check_rate_limit_reset; [done |].
      right. eexists. split; [exact Hrow' |]. simpl. lia.
  - reflexivity.
Qed.

Lemma check_rate_limit_windows_witness :
  ∃ db',
    rate_checks [0; 5; 10; 15; 20; 25; 30; 35; 40; 45; 59] Ex.empty_db
      "10.0.0.1" "shorten" 60 10
    = ([true; true; true; true; true; true; true; true; true; true; false], db')
    ∧ (check_rate_limit 60 db' "10.0.0.1" "shorten" 60 10).2 = true.
Proof.
  destruct (check_rate_limit_windows Ex.empty_db "10.0.0.1" "shorten" 60 10 0
              [5; 10; 15; 20; 25; 30; 35; 40; 45; 59] 60)
    as (_ & _ & Hseq & _).
  destruct Hseq as (db' & Hrun & Hlater).
  - exact I.
  - repeat constructor.
  - lia.
  - exists db'. split; [exact Hrun | exact Hlater].
Defined.

(** C9: when the rate limiter denies a request, the answer is the 429
    error, the only row written is the counter of the request's own
    (ip, bucket) pair -- the table [urls], the spam counters and every
    other rate-limit counter are as before -- and the decorated view is
    not run: the outcome is the same whatever the view is. *)
Theorem rate_limit_denial_frame (bucket : string) (func : View) (ctx : Ctx)
    (db : Db) (config : RateConfig) :
  RATE_LIMITS bucket = Some config →
  (check_rate_limit (time_rate ctx) db (get_client_ip ctx) bucket
     (rc_window config) (rc_limit config)).2 = false →
  (rate_limit bucket func ctx db).1
  = (JsonError "Rate limit exceeded. Try again later.", 429)
  ∧ urls (rate_limit bucket func ctx db).2 = urls db
  ∧ spam_submissions (rate_limit bucket func ctx db).2 = spam_submissions db
  ∧ (∀ k, k ≠ (get_client_ip ctx, bucket) →
       rate_limits (rate_limit bucket func ctx db).2 !! k = rate_limits db !! k)
  ∧ ∀ func' : View, rate_limit bucket func' ctx db = rate_limit bucket func ctx db.
Proof.
  intros Hcfg Hdenied.
  pose proof (check_rate_limit_frame (time_rate ctx) db (get_client_ip ctx)
                bucket (rc_window config) (rc_limit config)) as Hframe.
  unfold rate_limit. rewrite Hcfg.
  destruct (check_rate_limit _ _ _ _ _ _) as [db' allowed].
  simpl in Hdenied, Hframe. subst allowed. simpl.
  destruct Hframe as (Hu & Hs & Hr). done.
Qed.

Lemma rate_limit_denial_frame_witness :
  (route_shorten Urllib.urlparse (Ex.post "https://example.com/a" 1030) Ex.busy_db).1
  = (JsonError "Rate limit exceeded. Try again later.", 429)
  ∧ urls (route_shorten Urllib.urlparse
            (Ex.post "https://example.com/a" 1030) Ex.busy_db).2 = [].
Proof.
  destruct (rate_limit_denial_frame "shorten" (shorten Urllib.urlparse)
              (Ex.post "https://example.com/a" 1030) Ex.busy_db
              {| rc_limit := 10; rc_window := 60 |})
    as (Hresp & Hurls & _).
  - reflexivity.
  - vm_compute. reflexivity.
  - split; [exact Hresp | exact Hurls].
Defined.

(** ** Strings *)

Lemma truthy_true s : Py.truthy s = true ↔ s ≠ "".
Proof. by destruct s. Qed.

Lemma truthy_false s : Py.truthy s = false ↔ s = "".
Proof. by destruct s. Qed.

Lemma all_spec p s :
  Py.all p s = true ↔ ∀ c, Py.char_in c s = true → p c = true.
Proof.
  induction s as [|d s IH]; simpl.
  - split; [intros _ c Hc; discriminate | done].
  - destruct (p d) eqn:Hd.
    + rewrite IH. split.
      * intros H c. destruct (decide (c = d)) as [->|]; [done | apply H].
      * intros H c Hc. apply H. by destruct (decide (c = d)).
    + split; [done |]. intros H. rewrite <- Hd. apply H.
      by destruct (decide (d = d)).
Qed.

Lemma sapp_nil s : "" +:+ s = s.
Proof. reflexivity. Qed.

Lemma sapp_cons c a b : String c a +:+ b = String c (a +:+ b).
Proof. reflexivity. Qed.

Lemma lstrip_with_spec p s :
  ∃ l, s = l +:+ Py.lstrip_with p s
       ∧ Py.all p l = true
       ∧ ∀ c a, Py.lstrip_with p s = String c a → p c = false.
Proof.
  induction s as [|d s (l & Hs & Hl & Hfirst)]; simpl.
  - exists "". done.
  - destruct (p d) eqn:Hd.
    + exists (String d l). simpl. rewrite Hd, sapp_cons, <- Hs. done.
    + exists "". split_and!; [done | done |]. by intros c a [= <- _].
Qed.

Lemma rstrip_with_spec p s :
  ∃ r, s = Py.rstrip_with p s +:+ r
       ∧ Py.all p r = true
       ∧ (∀ a c, Py.rstrip_with p s = a +:+ String c "" → p c = false)
       ∧ ∀ c a, Py.rstrip_with p s = String c a → ∃ b, s = String c b.
Proof.
  induction s as [|d s (r & Hs & Hr & Hlast & Hfirst)]; simpl.
  - exists "". split_and!; [done | done | | done].
    intros [|] c; discriminate.
  - destruct (Py.rstrip_with p s) as [|e t] eqn:Ht.
    + rewrite sapp_nil in Hs. destruct (p d) eqn:Hd.
      * exists (String d r). simpl. rewrite Hd, sapp_nil.
        split_and!; [by rewrite Hs | done | | done].
        intros [|] c; discriminate.
      * exists r. rewrite sapp_cons, sapp_nil.
        split_and!; [by rewrite Hs | done | | ].
        -- intros [|x [|]] c [=]; by subst.
        -- intros c a [= <- _]. eauto.
    + exists r. rewrite sapp_cons.
      split_and!; [by rewrite Hs | done | | ].
      * intros [|x a] c; [discriminate |].
        rewrite sapp_cons. intros [= <- Ha]. by apply (Hlast a c).
      * intros c a [= <- _]. eauto.
Qed.

(** [s.strip()] takes white space off both ends and nothing else. *)
Lemma strip_spec s :
  ∃ l r, s = l +:+ Py.strip s +:+ r
         ∧ Py.all Py.isspace l = true ∧ Py.all Py.isspace r = true
         ∧ (∀ c a, Py.strip s = String c a → Py.isspace c = false)
         ∧ (∀ a c, Py.strip s = a +:+ String c "" → Py.isspace c = false).
Proof.
  unfold Py.strip.
  destruct (lstrip_with_spec Py.isspace s) as (l & Hs & Hl & Hfirst).
  destruct (rstrip_with_spec Py.isspace (Py.lstrip_with Py.isspace s))
    as (r & Hs' & Hr & Hlast & Hkeep).
  exists l, r. split_and!; [by rewrite <- Hs' | done | done | | done].
  intros c a Hc. destruct (Hkeep c a Hc) as [b Hb]. by apply (Hfirst c b).
Qed.

(** [s.split(",")[0]] is the text of [s] up to its first comma. *)
Lemma split_comma_first_spec s :
  ∃ rest, s = Py.split_comma_first s +:+ rest
          ∧ (rest = "" ∨ ∃ t, rest = String "," t)
          ∧ Py.char_in "," (Py.split_comma_first s) = false.
Proof.
  induction s as [|d s (rest & Hs & Hrest & Hno)]; simpl.
  - exists "". eauto.
  - destruct (decide (d = ","%char)) as [->|Hd].
    + exists (String "," s). eauto.
    + exists rest. rewrite sapp_cons, <- Hs. simpl. split_and!; [done | done |].
      by destruct (decide (","%char = d)).
Qed.

(** ** Client address *)

(** C10, with an empty header read as no header: without a non-empty
    forwarding header and without a peer address the client address is
    the constant "unknown" (so all such requests share one counter
    identity); with a non-empty forwarding header it is the text of the
    header before its first comma, with the white space around it
    removed; otherwise it is the peer address. *)
Theorem get_client_ip_cases (ctx : Ctx) :
  (forwarded_value ctx = None → peer_value ctx = None →
   get_client_ip ctx = "unknown")
  ∧ (∀ h, forwarded_value ctx = Some h →
     ∃ entry rest l r,
       h = entry +:+ rest
       ∧ (rest = "" ∨ ∃ t, rest = String "," t)
       ∧ Py.char_in "," entry = false
       ∧ entry = l +:+ get_client_ip ctx +:+ r
       ∧ Py.all Py.isspace l = true ∧ Py.all Py.isspace r = true
       ∧ (∀ c a, get_client_ip ctx = String c a → Py.isspace c = false)
       ∧ (∀ a c, get_client_ip ctx = a +:+ String c "" → Py.isspace c = false))
  ∧ (∀ a, forwarded_value ctx = None → peer_value ctx = Some a →
     get_client_ip ctx = a)
  ∧ (∀ ctx', forwarded_value ctx = None → peer_value ctx = None →
     forwarded_value ctx' = None → peer_value ctx' = None →
     get_client_ip ctx' = get_client_ip ctx).
Proof.
  assert (Hnone : ∀ c, forwarded_value c = None → peer_value c = None →
                       get_client_ip c = "unknown").
  { intros c. unfold forwarded_value, peer_value, get_client_ip.
    destruct (x_forwarded_for c) as [[|x h]|]; simpl; try done;
      destruct (remote_addr c) as [[|y a]|]; simpl; done. }
  split_and!.
  - apply Hnone.
  - intros h Hh. unfold forwarded_value in Hh. unfold get_client_ip.
    destruct (x_forwarded_for ctx) as [h'|]; [|done]. simpl.
    destruct (Py.truthy h') eqn:Ht; [|done]. injection Hh as ->.
    destruct (split_comma_first_spec h) as (rest & Hsplit & Hrest & Hno).
    destruct (strip_spec (Py.split_comma_first h))
      as (l & r & Hstrip & Hl & Hr & Hfirst & Hlast).
    exists (Py.split_comma_first h), rest, l, r. done.
  - intros a. unfold forwarded_value, peer_value, get_client_ip.
    destruct (x_forwarded_for ctx) as [[|x h]|]; simpl; try done;
      destruct (remote_addr ctx) as [[|y b]|]; simpl; try done;
      by intros _ [= <-].
  - intros ctx' H1 H2 H3 H4. by rewrite !Hnone.
Qed.

Lemma get_client_ip_cases_witness :
  forwarded_value Ex.proxied = Some " 203.0.113.7 , 10.0.0.2"
  ∧ ∃ entry rest l r,
      " 203.0.113.7 , 10.0.0.2" = entry +:+ rest
      ∧ entry = l +:+ get_client_ip Ex.proxied +:+ r
      ∧ get_client_ip Ex.proxied = "203.0.113.7".
Proof.
  split; [reflexivity |].
  destruct (get_client_ip_cases Ex.proxied) as (_ & Hfwd & _).
  destruct (Hfwd " 203.0.113.7 , 10.0.0.2" eq_refl)
    as (entry & rest & l & r & H1 & _ & _ & H2 & _).
  exists entry, rest, l, r. split_and!; [exact H1 | exact H2 | reflexivity].
Defined.

(** C10 as stated fails for a header that is present and empty: the
    first entry of the header is the empty string, and the code answers
    with the peer address. *)
Lemma get_client_ip_empty_header :
  x_forwarded_for Ex.empty_header = Some ""
  ∧ Py.strip (Py.split_comma_first "") = ""
  ∧ get_client_ip Ex.empty_header = "10.0.0.1".
Proof. split_and!; reflexivity. Qed.

(** ** The table [urls] *)

Section Registry.

Implicit Types (db : Db) (r : UrlRow) (code url : string).

Lemma select_by_code_Some db code r :
  Sql.select_by_code db code = Some r → r ∈ urls db ∧ u_code r = code.
Proof.
  unfold Sql.select_by_code. intros H. apply find_some in H as [Hin Hc].
  split; [by apply list_elem_of_In | by apply bool_decide_eq_true in Hc].
Qed.

Lemma select_by_code_None db code :
  Sql.select_by_code db code = None ↔ code ∉ map u_code (urls db).
Proof.
  unfold Sql.select_by_code. split.
  - intros H [r [Hr Hin]]%list_elem_of_In%in_map_iff.
    apply (find_none _ _ H) in Hin. by apply bool_decide_eq_false in Hin.
  - intros Hno. destruct (find _ _) as [r|] eqn:Hf; [|done].
    apply find_some in Hf as [Hin Hc]. apply bool_decide_eq_true in Hc.
    exfalso. apply Hno. apply list_elem_of_In, in_map_iff. eauto.
Qed.

Lemma select_by_original_url_Some db url r :
  Sql.select_by_original_url db url = Some r →
  r ∈ urls db ∧ u_original_url r = url.
Proof.
  unfold Sql.select_by_original_url. intros H.
  apply find_some in H as [Hin Hc].
  split; [by apply list_elem_of_In | by apply bool_decide_eq_true in Hc].
Qed.

Lemma select_by_original_url_None db url :
  Sql.select_by_original_url db url = None ↔
  ∀ r, r ∈ urls db → u_original_url r ≠ url.
Proof.
  unfold Sql.select_by_original_url. split.
  - intros H r Hin%list_elem_of_In.
    apply (find_none _ _ H) in Hin. by apply bool_decide_eq_false in Hin.
  - intros Hno. destruct (find _ _) as [r|] eqn:Hf; [|done].
    apply find_some in Hf as [Hin Hc]. apply bool_decide_eq_true in Hc.
    exfalso. by apply (Hno r); [apply list_elem_of_In |].
Qed.

(** With distinct codes, the row of a code is the one [SELECT] finds. *)
Lemma select_by_code_unique db r :
  NoDup (map u_code (urls db)) → r ∈ urls db →
  Sql.select_by_code db (u_code r) = Some r.
Proof.
  unfold Sql.select_by_code. induction (urls db) as [|x l IH]; simpl.
  - by intros _ ?%elem_of_nil.
  - intros [Hx Hl]%NoDup_cons [->|Hin]%elem_of_cons.
    + by rewrite bool_decide_eq_true_2.
    + rewrite bool_decide_eq_false_2; [by apply IH |].
      intros Heq. apply Hx. rewrite Heq. by apply list_elem_of_fmap_2.
Qed.

Lemma insert_url_Some db code url ca ea db' :
  Sql.insert_url db code url ca ea = Some db' ↔
  Sql.select_by_code db code = None
  ∧ db' = set_urls db (urls db ++ [Sql.new_row db code url ca ea]).
Proof.
  unfold Sql.insert_url, Sql.select_by_code.
  destruct (existsb _ _) eqn:Hex.
  - split; [done |]. intros [Hnone _].
    apply existsb_exists in Hex as (r & Hin & Hc).
    by rewrite (find_none _ _ Hnone r Hin) in Hc.
  - split.
    + intros [= <-]. split; [|done].
      destruct (find _ _) as [r|] eqn:Hf; [|done].
      apply find_some in Hf as [Hin Hc].
      assert (existsb (λ r, bool_decide (u_code r = code)) (urls db) = true)
        by (apply existsb_exists; eauto).
      congruence.
    + by intros [_ ->].
Qed.

Lemma next_id_above l r : r ∈ l → u_id r < Sql.next_id l.
Proof.
  unfold Sql.next_id. induction l as [|x l IH]; simpl.
  - by intros ?%elem_of_nil.
  - intros [->|Hin]%elem_of_cons; [lia |]. specialize (IH Hin). lia.
Qed.

Lemma next_id_fresh l : Sql.next_id l ∉ map u_id l.
Proof.
  intros [r [Hr Hin]]%list_elem_of_In%in_map_iff.
  apply list_elem_of_In, next_id_above in Hin. lia.
Qed.

Lemma insert_url_wf db code url ca ea db' :
  db_wf db → Sql.insert_url db code url ca ea = Some db' → db_wf db'.
Proof.
  intros [Hc Hi] [Hnone ->]%insert_url_Some.
  apply select_by_code_None in Hnone.
  unfold db_wf. simpl. rewrite !map_app. simpl. split.
  - apply NoDup_app. split_and!; [done | | apply NoDup_singleton].
    intros c Hin ->%list_elem_of_singleton. done.
  - apply NoDup_app. split_and!; [done | | apply NoDup_singleton].
    intros i Hin ->%list_elem_of_singleton. by apply (next_id_fresh (urls db)).
Qed.

Lemma delete_by_id_wf db i : db_wf db → db_wf (Sql.delete_by_id db i).
Proof.
  intros [Hc Hi]. unfold db_wf, Sql.delete_by_id. simpl.
  revert Hc Hi. induction (urls db) as [|x l IH]; simpl; [done |].
  intros [Hx Hc]%NoDup_cons [Hy Hi]%NoDup_cons.
  destruct (IH Hc Hi) as [IHc IHi].
  rewrite filter_cons. case_decide; simpl; [|done].
  split; apply NoDup_cons; (split; [|done]).
  - intros [r [Hr Hin]]%list_elem_of_fmap. apply Hx. rewrite Hr.
    apply list_elem_of_fmap_2. by apply list_elem_of_filter in Hin as [_ ?].
  - intros [r [Hr Hin]]%list_elem_of_fmap. apply Hy. rewrite Hr.
    apply list_elem_of_fmap_2. by apply list_elem_of_filter in Hin as [_ ?].
Qed.

Lemma bump_click_count_codes db i :
  map u_code (urls (Sql.bump_click_count db i)) = map u_code (urls db)
  ∧ map u_id (urls (Sql.bump_click_count db i)) = map u_id (urls db).
Proof.
  unfold Sql.bump_click_count. simpl. rewrite !map_map.
  split; apply map_ext; intros r; by case_decide.
Qed.

Lemma bump_click_count_wf db i : db_wf db → db_wf (Sql.bump_click_count db i).
Proof.
  unfold db_wf. by destruct (bump_click_count_codes db i) as [-> ->].
Qed.

End Registry.

(** ** Resolution *)

Section Follow.

Implicit Types (db : Db) (r : UrlRow) (ctx : Ctx).



Lemma delete_by_id_others db r r' :
  r' ∈ urls db → u_id r' ≠ u_id r → r' ∈ urls (Sql.delete_by_id db (u_id r)).
Proof.
  intros Hin Hne. unfold Sql.delete_by_id. simpl.
  by apply list_elem_of_filter.
Qed.

(** Two rows of a consistent table with the same id are the same row. *)
Lemma same_id_same_row db r r' :
  db_wf db → r ∈ urls db → r' ∈ urls db → u_id r' = u_id r → r' = r.
Proof.
  intros [_ Hi]. revert Hi. induction (urls db) as [|x l IH]; simpl.
  - by intros _ ?%elem_of_nil.
  - intros [Hx Hl]%NoDup_cons [->|H1]%elem_of_cons [->|H2]%elem_of_cons Heq.
    + done.
    + exfalso. apply Hx. rewrite <- Heq. by apply list_elem_of_fmap_2.
    + exfalso. apply Hx. rewrite Heq. by apply list_elem_of_fmap_2.
    + by apply IH.
Qed.

Lemma bump_click_count_select db r :
  db_wf db → r ∈ urls db →
  Sql.select_by_code (Sql.bump_click_count db (u_id r)) (u_code r)
  = Some (Sql.clicked r).
Proof.
  intros Hwf Hin.
  assert (Hin' : Sql.clicked r ∈ urls (Sql.bump_click_count db (u_id r))).
  { unfold Sql.bump_click_count. simpl.
    apply list_elem_of_fmap. exists r. by rewrite decide_True. }
  apply (select_by_code_unique _ (Sql.clicked r)); [|done].
  apply (bump_click_count_wf db (u_id r)) in Hwf. by destruct Hwf.
Qed.

Lemma bump_click_count_others db r r' :
  r' ∈ urls db → u_id r' ≠ u_id r →
  r' ∈ urls (Sql.bump_click_count db (u_id r)).
Proof.
  intros Hin Hne. unfold Sql.bump_click_count. simpl.
  apply list_elem_of_fmap. exists r'. by rewrite decide_False.
Qed.

Lemma redirect_answer_single_line u :
  single_line u → redirect_answer u = (Redirect u, 302).
Proof. intros [Hcr Hlf]. unfold redirect_answer, redirect. by rewrite Hcr, Hlf. Qed.

Lemma redirect_answer_newline u :
  ¬ single_line u → redirect_answer u = (InternalServerError, 500).
Proof.
  unfold single_line, redirect_answer, redirect. intros Hno.
  destruct (Py.char_in "013" u); [done |].
  destruct (Py.char_in "010" u); [done |]. by destruct Hno.
Qed.

Lemma follow_redirects ctx db r :
  follow ctx db
  = match redirect (u_original_url r) with
    | Returned response => (response, Sql.bump_click_count db (u_id r))
    | ValueError =>
        ((InternalServerError, 500), Sql.bump_click_count db (u_id r))
    end →
  follow ctx db = (redirect_answer (u_original_url r),
                   Sql.bump_click_count db (u_id r)).
Proof. intros ->. unfold redirect_answer. by destruct (redirect _). Qed.

(** A live link: the redirect (or the failure to build it), one more
    click on this row, nothing else. *)
Lemma follow_live ctx db r :
  db_wf db → Sql.select_by_code db (path_code ctx) = Some r →
  Py.truthy (path_code ctx) = true → Py.len (path_code ctx) ≤ 32 →
  utcnow_follow ctx ≤ fromisoformat (u_expires_at r) →
  follow ctx db
  = (redirect_answer (u_original_url r), Sql.bump_click_count db (u_id r))
  ∧ Sql.select_by_code (follow ctx db).2 (path_code ctx) = Some (Sql.clicked r)
  ∧ ∀ r', r' ∈ urls db → r' ≠ r → r' ∈ urls (follow ctx db).2.
Proof.
  intros Hwf Hsel Hne Hlen Hlive.
  destruct (select_by_code_Some _ _ _ Hsel) as [Hin Hcode].
  assert (Hf : follow ctx db
    = (redirect_answer (u_original_url r), Sql.bump_click_count db (u_id r))).
  { apply follow_redirects. unfold follow. rewrite Hne, Hsel. simpl.
    replace (32 <? Py.len (path_code ctx)) with false
      by (symmetry; apply Z.ltb_ge; lia).
    replace (fromisoformat (u_expires_at r) <? utcnow_follow ctx) with false
      by (symmetry; apply Z.ltb_ge; lia).
    done. }
  rewrite Hf. simpl. split_and!; [done | |].
  - rewrite <- Hcode. by apply bump_click_count_select.
  - intros r' Hin' Hneq. apply bump_click_count_others; [done |].
    intros Heq. apply Hneq. by apply (same_id_same_row db).
Qed.


(** The database after [follow], whatever the answer is. *)
Lemma follow_db ctx db :
  (follow ctx db).2
  = if negb (Py.truthy (path_code ctx)) || (32 <? Py.len (path_code ctx))
    then db
    else
      match Sql.select_by_code db (path_code ctx) with
      | None => db
      | Some row =>
          if fromisoformat (u_expires_at row) <? utcnow_follow ctx
          then Sql.delete_by_id db (u_id row)
          else Sql.bump_click_count db (u_id row)
      end.
Proof.
  unfold follow.
  destruct (negb _ || _); [done |].
  destruct (Sql.select_by_code db (path_code ctx)) as [r|]; [|done].
  destruct (_ <? _); [done |]. by destruct (redirect _).
Qed.

Lemma follow_wf ctx db : db_wf db → db_wf (follow ctx db).2.
Proof.
  intros Hwf. unfold follow.
  destruct (negb _ || _); [done |].
  destruct (Sql.select_by_code db (path_code ctx)) as [r|]; [|done].
  destruct (_ <? _); simpl; [by apply delete_by_id_wf |].
  destruct (redirect _); by apply bump_click_count_wf.
Qed.

(** [follow] reads and writes the table [urls] only. *)
Lemma follow_frame ctx db :
  rate_limits (follow ctx db).2 = rate_limits db
  ∧ spam_submissions (follow ctx db).2 = spam_submissions db.
Proof.
  unfold follow.
  destruct (negb _ || _); [done |].
  destruct (Sql.select_by_code db (path_code ctx)) as [r|]; [|done].
  destruct (_ <? _); [done |]. by destruct (redirect _).
Qed.

End Follow.




(** ** Allocation of random codes *)

Section Allocation.

Implicit Types (db : Db) (draws : nat → Z).

(** The generated code is never empty, whatever was drawn. *)
Lemma generate_code_truthy v : Py.truthy (generate_code v) = true.
Proof.
  unfold generate_code, base62_encode.
  set (encoded := if v =? 0 then "0" else _).
  destruct (Py.len encoded <? CODE_LENGTH) eqn:Hlt.
  - unfold Py.repeat_char.
    apply Z.ltb_lt in Hlt. unfold Py.len, CODE_LENGTH in *.
    destruct (Z.to_nat (7 - Z.of_nat (String.length encoded))) eqn:Hn; [lia |].
    done.
  - apply Z.ltb_ge in Hlt. unfold Py.len, CODE_LENGTH in Hlt.
    destruct encoded; [simpl in Hlt; lia | done].
Qed.

Lemma generate_code_len v : 0 ≤ v < 62 ^ 7 → Py.len (generate_code v) = 7.
Proof.
  intros Hv. unfold Py.len. by rewrite generate_code_length.
Qed.

(** The loop and the single try on the connection of the request, with
    the statements written out. *)
Lemma insert_unique_loop_step n i draws db url ca ea :
  insert_unique_loop (S n) i draws db url ca ea
  = match Sql.select_by_code db (generate_code (draws i)) with
    | Some _ => insert_unique_loop n (S i) draws db url ca ea
    | None =>
        match Sql.insert_url db (generate_code (draws i)) url ca ea with
        | Some db' => (Some (generate_code (draws i)), db')
        | None => insert_unique_loop n (S i) draws db url ca ea
        end
    end.
Proof.
  unfold insert_unique_loop. simpl.
  destruct (Sql.select_by_code db (generate_code (draws i))); [done |].
  by destruct (Sql.insert_url db (generate_code (draws i)) url ca ea).
Qed.

Lemma insert_custom_url_step db code url ca ea :
  insert_custom_url db code url ca ea
  = match Sql.select_by_code db code with
    | Some _ => (None, db)
    | None =>
        match Sql.insert_url db code url ca ea with
        | Some db' => (Some code, db')
        | None => (None, db)
        end
    end.
Proof.
  unfold insert_custom_url, insert_custom_url_on. simpl.
  destruct (Sql.select_by_code db code); [done |].
  by destruct (Sql.insert_url db code url ca ea).
Qed.

(** What the loop returns: the first candidate that is free, inserted;
    or nothing, when every candidate of its [n] turns was taken. *)
Lemma insert_unique_loop_spec n : ∀ i draws db url ca ea,
  match insert_unique_loop n i draws db url ca ea with
  | (Some c, db') =>
      ∃ k, (k < n)%nat
           ∧ c = generate_code (draws (i + k)%nat)
           ∧ (∀ j, (j < k)%nat →
                is_Some (Sql.select_by_code db (generate_code (draws (i + j)%nat))))
           ∧ Sql.select_by_code db c = None
           ∧ Sql.insert_url db c url ca ea = Some db'
  | (None, db') =>
      db' = db
      ∧ ∀ j, (j < n)%nat →
          is_Some (Sql.select_by_code db (generate_code (draws (i + j)%nat)))
  end.
Proof.
  induction n as [|n IH]; intros i draws db url ca ea.
  - simpl. split; [done | lia].
  - rewrite insert_unique_loop_step.
    destruct (Sql.select_by_code db (generate_code (draws i))) as [r|] eqn:Hsel.
    + specialize (IH (S i) draws db url ca ea).
      destruct (insert_unique_loop n (S i) draws db url ca ea) as [[c|] db'].
      * destruct IH as (k & Hk & Hc & Hbefore & Hfree & Hins).
        exists (S k). split_and!; [lia | | | done | done].
        -- by replace (i + S k)%nat with (S i + k)%nat by lia.
        -- intros [|j] Hj.
           ++ rewrite Nat.add_0_r, Hsel. eauto.
           ++ replace (i + S j)%nat with (S i + j)%nat by lia.
              apply Hbefore. lia.
      * destruct IH as [-> Hall]. split; [done |].
        intros [|j] Hj.
        -- rewrite Nat.add_0_r, Hsel. eauto.
        -- replace (i + S j)%nat with (S i + j)%nat by lia. apply Hall. lia.
    + destruct (Sql.insert_url db (generate_code (draws i)) url ca ea)
        as [db'|] eqn:Hins.
      * exists 0%nat. rewrite Nat.add_0_r.
        split_and!; [lia | done | intros j Hj; lia | done | done].
      * exfalso.
        assert (is_Some (Sql.insert_url db (generate_code (draws i)) url ca ea)).
        { eexists. apply insert_url_Some. split; [done | reflexivity]. }
        rewrite Hins in H. by destruct H.
Qed.

(** On any connection: what the loop returns, in terms of the single
    tries.  It returns the candidate of the first try that inserted,
    after tries that all met a conflict; or nothing, after [n]
    conflicts. *)
Lemma insert_unique_loop_on_retry {St} (conn : Connection St) n :
  ∀ i draws (s : St) url ca ea,
  match insert_unique_loop_on conn n i draws s url ca ea with
  | (Some c, s') =>
      ∃ k, (k < n)%nat
           ∧ c = generate_code (draws (i + k)%nat)
           ∧ (∀ j, (j < k)%nat →
                (insert_if_absent conn
                   (after_conflicts conn j i draws s url ca ea)
                   (generate_code (draws (i + j)%nat)) url ca ea).1 = false)
           ∧ insert_if_absent conn (after_conflicts conn k i draws s url ca ea)
               c url ca ea = (true, s')
  | (None, s') =>
      s' = after_conflicts conn n i draws s url ca ea
      ∧ ∀ j, (j < n)%nat →
          (insert_if_absent conn (after_conflicts conn j i draws s url ca ea)
             (generate_code (draws (i + j)%nat)) url ca ea).1 = false
  end.
Proof.
  induction n as [|n IH]; intros i draws s url ca ea.
  - simpl. split; [done | lia].
  - assert (Hnext : ∀ s1,
      (insert_if_absent conn s (generate_code (draws i)) url ca ea) = (false, s1) →
      insert_unique_loop_on conn (S n) i draws s url ca ea
      = insert_unique_loop_on conn n (S i) draws s1 url ca ea).
    { intros s1. unfold insert_if_absent. simpl.
      destruct (conn_code_exists conn s (generate_code (draws i))) as [[] s0];
        [by intros [= <-] |].
      destruct (conn_insert conn s0 (generate_code (draws i)) url ca ea)
        as [[] s2]; [done | by intros [= <-]]. }
    destruct (insert_if_absent conn s (generate_code (draws i)) url ca ea)
      as [[] s1] eqn:Htry.
    + assert (Hdone : insert_unique_loop_on conn (S n) i draws s url ca ea
                      = (Some (generate_code (draws i)), s1)).
      { revert Htry. unfold insert_if_absent. simpl.
        destruct (conn_code_exists conn s (generate_code (draws i))) as [[] s0];
          [done |].
        destruct (conn_insert conn s0 (generate_code (draws i)) url ca ea)
          as [[] s2]; [by intros [= <-] | done]. }
      rewrite Hdone. exists 0%nat. rewrite Nat.add_0_r. simpl.
      split_and!; [lia | done | intros j Hj; lia | done].
    + rewrite (Hnext s1 eq_refl).
      specialize (IH (S i) draws s1 url ca ea).
      destruct (insert_unique_loop_on conn n (S i) draws s1 url ca ea)
        as [[c|] s'].
      * destruct IH as (k & Hk & Hc & Hbefore & Hins).
        exists (S k). simpl after_conflicts. rewrite Htry. simpl.
        split_and!; [lia | | | done].
        -- by replace (i + S k)%nat with (S i + k)%nat by lia.
        -- intros [|j] Hj.
           ++ simpl. by rewrite Nat.add_0_r, Htry.
           ++ simpl after_conflicts. rewrite Htry. simpl.
              replace (i + S j)%nat with (S i + j)%nat by lia.
              apply Hbefore. lia.
      * destruct IH as [-> Hall]. simpl after_conflicts. rewrite Htry. simpl.
        split; [done |].
        intros [|j] Hj.
        -- simpl. by rewrite Nat.add_0_r, Htry.
        -- simpl after_conflicts. rewrite Htry. simpl.
           replace (i + S j)%nat with (S i + j)%nat by lia. apply Hall. lia.
Qed.

(** Only the draws of the [n] turns are read. *)
Lemma insert_unique_loop_on_draws {St} (conn : Connection St) n :
  ∀ i draws draws' (s : St) url ca ea,
  (∀ j, (j < n)%nat → draws (i + j)%nat = draws' (i + j)%nat) →
  insert_unique_loop_on conn n i draws s url ca ea
  = insert_unique_loop_on conn n i draws' s url ca ea.
Proof.
  induction n as [|n IH]; intros i draws draws' s url ca ea Hagree; simpl.
  - done.
  - assert (H0 : draws i = draws' i).
    { specialize (Hagree 0%nat). rewrite Nat.add_0_r in Hagree.
      apply Hagree. lia. }
    assert (Hrest : ∀ s1, insert_unique_loop_on conn n (S i) draws s1 url ca ea
                       = insert_unique_loop_on conn n (S i) draws' s1 url ca ea).
    { intros s1. apply IH. intros j Hj.
      replace (S i + j)%nat with (i + S j)%nat by lia. apply Hagree. lia. }
    rewrite H0.
    destruct (conn_code_exists conn s (generate_code (draws' i))) as [[] s0];
      [apply Hrest |].
    destruct (conn_insert conn s0 (generate_code (draws' i)) url ca ea)
      as [[] s2]; [done | apply Hrest].
Qed.

(** A violation of the uniqueness constraint by the [INSERT], after a
    [SELECT] that found nothing, ends the turn like a candidate found
    taken: the loop goes on with the next turn, on the store as the
    failed statement left it. *)
Lemma insert_unique_loop_on_integrity_error {St} (conn : Connection St)
    n i draws (s s1 s2 : St) url ca ea :
  conn_code_exists conn s (generate_code (draws i)) = (false, s1) →
  conn_insert conn s1 (generate_code (draws i)) url ca ea = (false, s2) →
  insert_unique_loop_on conn (S n) i draws s url ca ea
  = insert_unique_loop_on conn n (S i) draws s2 url ca ea.
Proof. intros Hsel Herr. simpl. by rewrite Hsel, Herr. Qed.

End Allocation.

(** ** Shortening *)

Section Shorten.

Variable urlparse : string → Raising ParseResult.

Implicit Types (db : Db) (ctx : Ctx) (r : UrlRow).

(** The spam check writes one row of [spam_submissions] and nothing
    else. *)
Lemma spam_check_frame ctx db :
  urls (spam_check ctx db).1 = urls db
  ∧ rate_limits (spam_check ctx db).1 = rate_limits db
  ∧ ∀ k, k ≠ (get_client_ip ctx, submitted_url ctx) →
      spam_submissions (spam_check ctx db).1 !! k = spam_submissions db !! k.
Proof.
  unfold spam_check, is_spam_submission.
  destruct (spam_submissions db !! _) as [w|]; simpl.
  - destruct (SPAM_WINDOW_SECONDS <=? _); simpl; split_and!; try done;
      intros k Hk; [by rewrite lookup_insert_ne | by rewrite lookup_alter_ne].
  - split_and!; try done. intros k Hk. by rewrite lookup_insert_ne.
Qed.

Lemma spam_check_select_url ctx db url :
  Sql.select_by_original_url (spam_check ctx db).1 url
  = Sql.select_by_original_url db url.
Proof.
  unfold Sql.select_by_original_url.
  by destruct (spam_check_frame ctx db) as [-> _].
Qed.

Lemma spam_check_select_code ctx db code :
  Sql.select_by_code (spam_check ctx db).1 code = Sql.select_by_code db code.
Proof.
  unfold Sql.select_by_code.
  by destruct (spam_check_frame ctx db) as [-> _].
Qed.

Lemma shorten_outcome ctx db : ShortenOutcome urlparse ctx db (shorten urlparse ctx db).
Proof.
  unfold shorten.
  destruct (read_payload ctx) as [[u c]|] eqn:Hread; [|by apply SoUnreadable].
  assert (Hu0 : submitted_url ctx = u) by (unfold submitted_url; by rewrite Hread).
  assert (Hc0 : submitted_code ctx = c) by (unfold submitted_code; by rewrite Hread).
  assert (Hp : is_Some (read_payload ctx)) by eauto.
  clear Hread. subst u c.
  destruct (validate_url urlparse (submitted_url ctx)) as [[error|]|] eqn:Hurl.
  { apply SoInvalid. split; [done | by left]. }
  2: { by apply SoRaised. }
  assert (Hcode : (if Py.truthy (submitted_code ctx)
                   then validate_custom_code (submitted_code ctx) else None)
                  = validate_custom_code (submitted_code ctx)).
  { by destruct (submitted_code ctx). }
  rewrite Hcode.
  destruct (validate_custom_code (submitted_code ctx)) as [error|] eqn:Hval.
  { apply SoInvalid. split; [done | by right]. }
  assert (Hv : validated urlparse ctx) by done.
  fold (spam_check ctx db).
  pose proof (spam_check_frame ctx db) as (Hu & _ & _).
  pose proof (spam_check_select_url ctx db (submitted_url ctx)) as Hsu.
  destruct (spam_check ctx db) as [db1 spam] eqn:Hspam. simpl in Hu, Hsu.
  destruct spam.
  { pose proof (SoSpam urlparse ctx db Hv) as H. rewrite Hspam in H. by apply H. }
  rewrite Hsu.
  destruct (Sql.select_by_original_url db (submitted_url ctx)) as [r|] eqn:Hsel.
  { pose proof (SoExisting urlparse ctx db r Hv) as H. rewrite Hspam in H. by apply H. }
  fold (created_at_of ctx). fold (expires_at_of ctx).
  assert (Hsc : ∀ c, Sql.select_by_code db1 c = Sql.select_by_code db c).
  { intros c. unfold Sql.select_by_code. by rewrite Hu. }
  assert (Hins : ∀ c db', Sql.insert_url db1 c (submitted_url ctx)
                   (created_at_of ctx) (expires_at_of ctx) = Some db' →
                 db' = set_urls db1 (urls db ++
                         [Sql.new_row db c (submitted_url ctx)
                            (created_at_of ctx) (expires_at_of ctx)])).
  { intros c db' [_ ->]%insert_url_Some. unfold Sql.new_row. by rewrite Hu. }
  destruct (Py.truthy (submitted_code ctx)) eqn:Htr.
  - apply truthy_true in Htr. rewrite insert_custom_url_step, Hsc.
    destruct (Sql.select_by_code db (submitted_code ctx)) as [r|] eqn:Hc.
    { pose proof (SoTaken urlparse ctx db r Hv) as H. rewrite Hspam in H. by apply H. }
    destruct (Sql.insert_url db1 _ _ _ _) as [db'|] eqn:Hi.
    + rewrite (Hins _ _ Hi).
      pose proof (SoCreated urlparse ctx db (submitted_code ctx) Hv) as H.
      rewrite Hspam in H. apply H; eauto.
    + exfalso.
      assert (is_Some (Sql.insert_url db1 (submitted_code ctx)
                (submitted_url ctx) (created_at_of ctx) (expires_at_of ctx))).
      { eexists. apply insert_url_Some. by rewrite Hsc. }
      rewrite Hi in H. by destruct H.
  - apply truthy_false in Htr.
    change (insert_unique_url (randbelow ctx) db1 (submitted_url ctx)
              (created_at_of ctx) (expires_at_of ctx))
      with (insert_unique_loop 10 0 (randbelow ctx) db1 (submitted_url ctx)
              (created_at_of ctx) (expires_at_of ctx)).
    pose proof (insert_unique_loop_spec 10 0 (randbelow ctx) db1
                  (submitted_url ctx) (created_at_of ctx) (expires_at_of ctx))
      as Hloop.
    destruct (insert_unique_loop _ _ _ _ _ _ _) as [[c|] db'].
    + destruct Hloop as (k & Hk & Hc & Hbefore & Hfree & Hi).
      simpl in Hc. subst c. rewrite generate_code_truthy, (Hins _ _ Hi).
      pose proof (SoCreated urlparse ctx db (generate_code (randbelow ctx k)) Hv) as H.
      rewrite Hspam in H. apply H; try done.
      * right. split; [done |]. exists k. split_and!; [done | done |].
        intros j Hj. rewrite <- Hsc. by apply (Hbefore j).
      * by rewrite <- Hsc.
    + destruct Hloop as [-> Hall].
      pose proof (SoExhausted urlparse ctx db Hv) as H. rewrite Hspam in H.
      apply H; try done.
      intros j Hj. rewrite <- Hsc. by apply (Hall j).
Qed.


(** *** Custom codes *)

Lemma code_char_ok c :
  Py.isalnum c || Py.char_in c "-_" = true ↔
  Py.isalnum c = true ∨ c = "-"%char ∨ c = "_"%char.
Proof.
  rewrite orb_true_iff. simpl.
  destruct (decide (c = "-"%char)) as [->|]; [by intuition |].
  destruct (decide (c = "_"%char)) as [->|]; [by intuition |].
  intuition discriminate.
Qed.

Lemma validate_custom_code_accepts code :
  code ≠ "" → (acceptable_code code ↔ validate_custom_code code = None).
Proof.
  intros Hne. unfold validate_custom_code, acceptable_code.
  apply truthy_true in Hne. rewrite Hne. cbn [negb].
  destruct (Py.len code <? 3) eqn:H3.
  { apply Z.ltb_lt in H3. split; [lia | done]. }
  destruct (32 <? Py.len code) eqn:H32.
  { apply Z.ltb_lt in H32. split; [lia | done]. }
  apply Z.ltb_ge in H3, H32.
  destruct (Py.all _ code) eqn:Hall; cbn [negb].
  - split; [done |]. intros _. split_and!; [done | done |].
    intros c Hc. apply code_char_ok.
    by apply (proj1 (all_spec _ code) Hall c).
  - split; [|done]. intros (_ & _ & Hchars). exfalso.
    assert (Py.all (λ c, Py.isalnum c || Py.char_in c "-_") code = true);
      [|congruence].
    apply all_spec. intros c Hc. by apply code_char_ok, Hchars.
Qed.

Lemma is_code_char_ascii_ok c :
  is_code_char_ascii c = true →
  Py.isalnum c = true ∨ c = "-"%char ∨ c = "_"%char.
Proof.
  unfold is_code_char_ascii, is_base62_char, Py.isalnum.
  intros [H|H]%orb_true_iff.
  - left. rewrite H. done.
  - right. simpl in H.
    destruct (decide (c = "-"%char)); [by left |].
    destruct (decide (c = "_"%char)); [by right | done].
Qed.

(** A payload that cannot be read leaves the URL empty, which is not
    valid. *)
Lemma unreadable_not_valid ctx :
  read_payload ctx = None →
  validate_url urlparse (submitted_url ctx)
  = Returned (Some "Please enter a URL.").
Proof. intros Hread. unfold submitted_url. by rewrite Hread. Qed.

(** Splits the side conditions of an outcome of [shorten]. *)
Ltac outcome_facts :=
  repeat match goal with
    | H : validated _ _ |- _ => destruct H
    | H : _ ∨ _ |- _ => destruct H
    | H : _ ∧ _ |- _ => destruct H
    | H : read_payload _ = None |- _ => apply unreadable_not_valid in H
    end.

(** A response with status 400 comes from the validations only. *)
Lemma shorten_validated_not_400 ctx db :
  validated urlparse ctx → (shorten urlparse ctx db).1.2 ≠ 400.
Proof.
  intros [Hu Hc]. pose proof (shorten_outcome ctx db) as Hout.
  destruct (shorten urlparse ctx db) as [resp db'].
  inversion Hout; subst; outcome_facts; simpl; congruence || done.
Qed.

Lemma shorten_invalid_code ctx db error :
  validate_url urlparse (submitted_url ctx) = Returned None →
  validate_custom_code (submitted_code ctx) = Some error →
  shorten urlparse ctx db = ((JsonError error, 400), db).
Proof.
  intros Hu Hc. pose proof (shorten_outcome ctx db) as Hout.
  destruct (shorten urlparse ctx db) as [resp db'].
  inversion Hout; subst; outcome_facts;
    first [exfalso; congruence | by simplify_eq].
Qed.

(** C6, with "alphanumeric for Python" for "[A-Za-z0-9]": for a custom
    code that is given (not empty once stripped) with a valid URL,
    [shorten] gets past the validation iff the code has 3 to 32
    characters, each one alphanumeric in the sense of [str.isalnum], a
    hyphen or an underscore; otherwise it answers 400 with the
    message of the failed check and leaves the database alone.  Codes
    of length 2 or 33 and codes with [@] are refused; codes of length
    3 to 32 over [A-Za-z0-9_-] are accepted. *)
Theorem custom_code_validation (ctx : Ctx) (db : Db) :
  validate_url urlparse (submitted_url ctx) = Returned None →
  submitted_code ctx ≠ "" →
  (acceptable_code (submitted_code ctx)
   ↔ validate_custom_code (submitted_code ctx) = None)
  ∧ (acceptable_code (submitted_code ctx)
     ↔ (shorten urlparse ctx db).1.2 ≠ 400)
  ∧ (¬ acceptable_code (submitted_code ctx) →
     ∃ error, validate_custom_code (submitted_code ctx) = Some error
              ∧ shorten urlparse ctx db = ((JsonError error, 400), db))
  ∧ (Py.len (submitted_code ctx) = 2 ∨ Py.len (submitted_code ctx) = 33
     ∨ Py.char_in "@" (submitted_code ctx) = true →
     ¬ acceptable_code (submitted_code ctx))
  ∧ (3 ≤ Py.len (submitted_code ctx) → Py.len (submitted_code ctx) ≤ 32 →
     Py.all is_code_char_ascii (submitted_code ctx) = true →
     acceptable_code (submitted_code ctx)).
Proof.
  intros Hu Hne.
  pose proof (validate_custom_code_accepts _ Hne) as Hacc.
  assert (Hrej : ¬ acceptable_code (submitted_code ctx) →
    ∃ error, validate_custom_code (submitted_code ctx) = Some error
             ∧ shorten urlparse ctx db = ((JsonError error, 400), db)).
  { intros Hno.
    destruct (validate_custom_code (submitted_code ctx)) as [error|] eqn:Hv.
    - exists error. split; [done |]. by apply shorten_invalid_code.
    - exfalso. by apply Hno, Hacc. }
  split_and!; [done | | done | |].
  - split.
    + intros Hok. apply shorten_validated_not_400. split; [done |].
      by apply Hacc.
    + intros H400.
      destruct (validate_custom_code (submitted_code ctx)) as [error|] eqn:Hv;
        [|by apply Hacc].
      exfalso. apply H400.
      by rewrite (shorten_invalid_code ctx db error Hu Hv).
  - intros Hbad (H3 & H32 & Hchars).
    destruct Hbad as [H | [H | H]]; [lia | lia |].
    destruct (Hchars _ H) as [Hal | [? | ?]]; discriminate.
  - intros H3 H32 Hall. split_and!; [done | done |].
    intros c Hc. apply is_code_char_ascii_ok.
    by apply (proj1 (all_spec _ _) Hall c).
Qed.


(** *** Spam suppression *)

(** The spam check follows the counting rule on the row of
    (client address, URL). *)
Lemma spam_check_next_window ctx db :
  let key := (get_client_ip ctx, submitted_url ctx) in
  let w' := next_window (time_spam ctx) SPAM_WINDOW_SECONDS
              (spam_submissions db !! key) in
  spam_submissions (spam_check ctx db).1 = <[key := w']> (spam_submissions db)
  ∧ (spam_check ctx db).2 = bool_decide (SPAM_MAX_DUPLICATES < count w').
Proof.
  cbv zeta. unfold spam_check, is_spam_submission, next_window.
  destruct (spam_submissions db !! _) as [w|] eqn:Hrow.
  - case_decide as Hrun.
    + replace (SPAM_WINDOW_SECONDS <=? time_spam ctx - window_start w)
        with false by (symmetry; apply Z.leb_gt; lia).
      simpl. split.
      * apply map_eq. intros k.
        destruct (decide (k = (get_client_ip ctx, submitted_url ctx)))
          as [->|Hk].
        -- by rewrite lookup_alter_eq, lookup_insert_eq, Hrow.
        -- by rewrite lookup_alter_ne, lookup_insert_ne.
      * case_bool_decide; [by apply Z.ltb_lt | by apply Z.ltb_ge; lia].
    + replace (SPAM_WINDOW_SECONDS <=? time_spam ctx - window_start w)
        with true by (symmetry; apply Z.leb_le; lia).
      done.
  - done.
Qed.

(** Past the validations, [shorten] leaves the spam table as the spam
    check made it. *)
Lemma shorten_spam_table ctx db :
  validated urlparse ctx →
  spam_submissions (shorten urlparse ctx db).2
  = spam_submissions (spam_check ctx db).1.
Proof.
  intros Hv. pose proof (shorten_outcome ctx db) as Hout.
  destruct (shorten urlparse ctx db) as [resp db'].
  inversion Hout; subst; simpl; try done;
    outcome_facts; exfalso; congruence.
Qed.

(** Past the validations, the spam answer is given exactly when the
    spam check says so, and then nothing else is done. *)
Lemma shorten_spam_iff ctx db :
  validated urlparse ctx →
  ((shorten urlparse ctx db).1 = spam_response ↔ (spam_check ctx db).2 = true)
  ∧ ((shorten urlparse ctx db).1.2 = 429 ↔ (spam_check ctx db).2 = true)
  ∧ ((spam_check ctx db).2 = true →
     shorten urlparse ctx db = (spam_response, (spam_check ctx db).1)).
Proof.
  intros Hv. pose proof (shorten_outcome ctx db) as Hout.
  destruct (shorten urlparse ctx db) as [resp db'].
  inversion Hout as [e He|He|? Hs|r ? Hs|r ? Hs|? Hs|c ? Hs|Hunread]; subst; simpl;
    try (outcome_facts; exfalso; congruence);
    try (rewrite Hs; split_and!; (split || idtac); by intros).
Qed.

Lemma spam_check_count_urls ctx db l :
  (spam_check ctx (set_urls db l)).2 = (spam_check ctx db).2.
Proof.
  unfold spam_check, is_spam_submission. simpl.
  destruct (spam_submissions db !! _) as [w|]; [|done].
  by destruct (_ <=? _).
Qed.

(** Submissions inside a running window count on from where it stands:
    the i-th of them is refused iff its count is above the maximum. *)
Lemma submissions_running ctxs : ∀ db ip url t1 c,
  spam_submissions db !! (ip, url) = Some {| window_start := t1; count := c |} →
  Forall (λ x, validated urlparse x ∧ get_client_ip x = ip
               ∧ submitted_url x = url
               ∧ time_spam x - t1 < SPAM_WINDOW_SECONDS) ctxs →
  ∀ i resp, (submissions urlparse ctxs db).1 !! i = Some resp →
    (resp = spam_response ↔ SPAM_MAX_DUPLICATES < c + 1 + Z.of_nat i).
Proof.
  induction ctxs as [|x ctxs IH]; intros db ip url t1 c Hrow Hall i resp Hi.
  - done.
  - apply Forall_cons in Hall as [(Hv & Hip & Hurl & Hrun) Hall].
    pose proof (spam_check_next_window x db) as [Htable Hanswer].
    rewrite Hip, Hurl, Hrow in Htable, Hanswer.
    unfold next_window in Htable, Hanswer. simpl in Htable, Hanswer.
    rewrite decide_True in Htable, Hanswer by done. simpl in Hanswer.
    pose proof (shorten_spam_table x db Hv) as Htable'.
    pose proof (shorten_spam_iff x db Hv) as (Hiff & _ & _).
    simpl submissions in Hi.
    destruct (shorten urlparse x db) as [resp0 db1] eqn:Hsh.
    simpl in Htable', Hiff.
    destruct (submissions urlparse ctxs db1) as [rest db2] eqn:Hrest.
    destruct i as [|i]; simpl in Hi.
    + injection Hi as <-. rewrite Hiff, Hanswer, bool_decide_eq_true. lia.
    + replace (c + 1 + Z.of_nat (S i)) with (c + 1 + 1 + Z.of_nat i) by lia.
      apply (IH db1 ip url t1 (c + 1)); [| done |].
      * rewrite Htable', Htable. apply lookup_insert_eq.
      * by rewrite Hrest.
Qed.

(** C3: past the validations, [shorten] first counts the submission
    on the row of (client address, submitted URL) by the counting rule
    with a window of 30 seconds, and answers 429 with the spam message
    exactly when the new count is above 3; it then leaves the table
    [urls] alone, and the answer does not depend on what that table
    holds.  For submissions of one URL from one address that begin
    with one opening a window and go on within 30 seconds of it, the
    fourth and all later ones are refused, the first three are not. *)
Theorem spam_check_throttles (ctx : Ctx) (db : Db) (ctxs : list Ctx) :
  let key := (get_client_ip ctx, submitted_url ctx) in
  let w' := next_window (time_spam ctx) 30 (spam_submissions db !! key) in
  let opens :=
    match spam_submissions db !! key with
    | None => True
    | Some w => 30 ≤ time_spam ctx - window_start w
    end in
  validated urlparse ctx →
  spam_submissions (shorten urlparse ctx db).2
    = <[key := w']> (spam_submissions db)
  ∧ ((shorten urlparse ctx db).1 = spam_response ↔ 3 < count w')
  ∧ ((shorten urlparse ctx db).1.2 = 429 ↔ 3 < count w')
  ∧ (3 < count w' →
     urls (shorten urlparse ctx db).2 = urls db
     ∧ ∀ l, (shorten urlparse ctx (set_urls db l)).1 = spam_response)
  ∧ (opens →
     Forall (λ x, validated urlparse x
                  ∧ get_client_ip x = get_client_ip ctx
                  ∧ submitted_url x = submitted_url ctx
                  ∧ time_spam x - time_spam ctx < 30) ctxs →
     ∀ i resp, (submissions urlparse (ctx :: ctxs) db).1 !! i = Some resp →
       (resp = spam_response ↔ (3 ≤ i)%nat)).
Proof.
  cbv zeta. intros Hv.
  pose proof (spam_check_next_window ctx db) as [Htable Hanswer].
  pose proof (shorten_spam_table ctx db Hv) as Htable'.
  pose proof (shorten_spam_iff ctx db Hv) as (Hiff & H429 & Hstop).
  change SPAM_WINDOW_SECONDS with 30 in *.
  change SPAM_MAX_DUPLICATES with 3 in *.
  set (w' := next_window (time_spam ctx) 30
               (spam_submissions db !! (get_client_ip ctx, submitted_url ctx)))
    in *.
  assert (Hcount : (spam_check ctx db).2 = true ↔ 3 < count w')
    by (by rewrite Hanswer, bool_decide_eq_true).
  split_and!.
  - by rewrite Htable'.
  - by rewrite Hiff.
  - by rewrite H429.
  - intros Hmany. split.
    + rewrite (Hstop (proj2 Hcount Hmany)). simpl.
      by destruct (spam_check_frame ctx db) as [-> _].
    + intros l.
      apply (proj1 (shorten_spam_iff ctx (set_urls db l) Hv)).
      rewrite spam_check_count_urls. by apply Hcount.
  - intros Hopens Hall i resp Hi.
    assert (Hw' : w' = {| window_start := time_spam ctx; count := 1 |}).
    { unfold w', next_window.
      destruct (spam_submissions db !! _) as [w|]; [|done].
      by rewrite decide_False by lia. }
    rewrite Hw' in *. simpl in Hcount.
    simpl submissions in Hi.
    destruct (shorten urlparse ctx db) as [resp0 db1] eqn:Hsh.
    simpl in Htable', Hiff.
    destruct (submissions urlparse ctxs db1) as [rest db2] eqn:Hrest.
    destruct i as [|i]; simpl in Hi.
    + injection Hi as <-. rewrite Hiff, Hcount. lia.
    + pose proof (submissions_running ctxs db1 (get_client_ip ctx)
                    (submitted_url ctx) (time_spam ctx) 1) as Hrun.
      rewrite Hrest in Hrun. simpl in Hrun.
      assert (Hrow : spam_submissions db1 !! (get_client_ip ctx, submitted_url ctx)
                     = Some {| window_start := time_spam ctx; count := 1 |})
        by (by rewrite Htable', Htable, lookup_insert_eq).
      rewrite (Hrun Hrow Hall i resp Hi).
      change SPAM_MAX_DUPLICATES with 3. lia.
Qed.

(** *** Allocation inside [shorten] *)

Lemma shorten_exhausted ctx db :
  validated urlparse ctx → (spam_check ctx db).2 = false →
  Sql.select_by_original_url db (submitted_url ctx) = None →
  submitted_code ctx = "" →
  ((∀ j, (j < 10)%nat →
      is_Some (Sql.select_by_code db (generate_code (randbelow ctx j))))
   ↔ shorten urlparse ctx db
     = ((JsonError "Unable to generate a unique short code.", 409),
        (spam_check ctx db).1))
  ∧ ((shorten urlparse ctx db).1.2 = 409 ∨ (shorten urlparse ctx db).1.2 = 201).
Proof.
  intros Hv Hs Hsel Hcode. pose proof (shorten_outcome ctx db) as Hout.
  destruct (shorten urlparse ctx db) as [resp db'].
  inversion Hout as [e He|He|? Hs'|r ? Hs' Hsel'|r ? Hs' Hsel' Hc'
                    |? Hs' Hsel' Hc' Hall|c ? Hs' Hsel' Hc' Hfree|Hunread];
    subst; try (outcome_facts; exfalso; congruence).
  - split; [done | by left].
  - split; [|by right]. split; [|done].
    intros Hall. exfalso.
    destruct Hc' as [[Hne _] | (_ & k & Hk & -> & _)]; [done |].
    destruct (Hall k Hk) as [r Hr]. congruence.
Qed.

(** C7: on any connection, the allocation of a random code draws a
    fresh candidate and tries to insert it if absent in each of at most
    10 turns (it reads the first ten draws only); it returns the
    candidate of the first turn whose [SELECT] finds no row and whose
    [INSERT] does not break the uniqueness constraint, after turns that
    all met a conflict, and it returns nothing after 10 conflicts.  A
    violation of the constraint by the [INSERT] is a conflict like a
    candidate found taken: the loop goes on with the next turn.  On the
    connection of a request that nothing interferes with, the conflicts
    are the candidates that a stored record has, and when all ten are
    taken [shorten] answers 409 with a message instead of failing. *)
Theorem insert_unique_url_attempts {St : Type} (conn : Connection St) (s : St)
    (ctx : Ctx) (db : Db) (url : string) (ca ea : Z) (draws : nat → Z) :
  match insert_unique_url_on conn draws s url ca ea with
  | (Some c, s') =>
      ∃ k, (k < 10)%nat
           ∧ c = generate_code (draws k)
           ∧ (∀ j, (j < k)%nat →
                (insert_if_absent conn
                   (after_conflicts conn j 0 draws s url ca ea)
                   (generate_code (draws j)) url ca ea).1 = false)
           ∧ insert_if_absent conn (after_conflicts conn k 0 draws s url ca ea)
               c url ca ea = (true, s')
  | (None, s') =>
      s' = after_conflicts conn 10 0 draws s url ca ea
      ∧ ∀ j, (j < 10)%nat →
          (insert_if_absent conn (after_conflicts conn j 0 draws s url ca ea)
             (generate_code (draws j)) url ca ea).1 = false
  end
  ∧ (∀ draws', (∀ j, (j < 10)%nat → draws j = draws' j) →
     insert_unique_url_on conn draws s url ca ea
     = insert_unique_url_on conn draws' s url ca ea)
  ∧ (∀ n i s1 s2,
       conn_code_exists conn s (generate_code (draws i)) = (false, s1) →
       conn_insert conn s1 (generate_code (draws i)) url ca ea = (false, s2) →
       insert_if_absent conn s (generate_code (draws i)) url ca ea = (false, s2)
       ∧ insert_unique_loop_on conn (S n) i draws s url ca ea
         = insert_unique_loop_on conn n (S i) draws s2 url ca ea)
  ∧ match insert_unique_url draws db url ca ea with
    | (Some c, db') =>
        ∃ k, (k < 10)%nat
             ∧ c = generate_code (draws k)
             ∧ (∀ j, (j < k)%nat →
                  is_Some (Sql.select_by_code db (generate_code (draws j))))
             ∧ Sql.select_by_code db c = None
             ∧ db' = set_urls db (urls db ++ [Sql.new_row db c url ca ea])
    | (None, db') =>
        db' = db
        ∧ ∀ j, (j < 10)%nat →
            is_Some (Sql.select_by_code db (generate_code (draws j)))
    end
  ∧ (validated urlparse ctx → (spam_check ctx db).2 = false →
     Sql.select_by_original_url db (submitted_url ctx) = None →
     submitted_code ctx = "" →
     ((∀ j, (j < 10)%nat →
         is_Some (Sql.select_by_code db (generate_code (randbelow ctx j))))
      ↔ shorten urlparse ctx db
        = ((JsonError "Unable to generate a unique short code.", 409),
           (spam_check ctx db).1))
     ∧ ((shorten urlparse ctx db).1.2 = 409
        ∨ (shorten urlparse ctx db).1.2 = 201)).
Proof.
  split_and!.
  - apply (insert_unique_loop_on_retry conn 10 0 draws s url ca ea).
  - intros draws' Hagree. by apply insert_unique_loop_on_draws.
  - intros n i s1 s2 Hsel Herr. split.
    + unfold insert_if_absent. by rewrite Hsel.
    + by apply (insert_unique_loop_on_integrity_error conn n i draws s s1 s2).
  - change (insert_unique_url draws db url ca ea)
      with (insert_unique_loop 10 0 draws db url ca ea).
    pose proof (insert_unique_loop_spec 10 0 draws db url ca ea) as Hloop.
    destruct (insert_unique_loop 10 0 draws db url ca ea) as [[c|] db'].
    + destruct Hloop as (k & Hk & Hc & Hbefore & Hfree & Hins).
      exists k. split_and!; try done.
      by apply insert_url_Some in Hins as [_ ->].
    + done.
  - apply shorten_exhausted.
Qed.

(** *** Links stay in the table *)

Lemma db_wf_urls db db' : urls db' = urls db → db_wf db → db_wf db'.
Proof. unfold db_wf. by intros ->. Qed.

Lemma select_by_code_urls db db' code :
  urls db' = urls db → Sql.select_by_code db' code = Sql.select_by_code db code.
Proof. unfold Sql.select_by_code. by intros ->. Qed.

Lemma select_by_code_app_old db db' code r l :
  urls db' = urls db ++ l → Sql.select_by_code db code = Some r →
  Sql.select_by_code db' code = Some r.
Proof.
  unfold Sql.select_by_code. intros -> Hsel.
  induction (urls db) as [|x xs IH]; simpl in *; [done |].
  destruct (bool_decide (u_code x = code)); [done | by apply IH].
Qed.

Lemma select_by_code_app_new db db' r :
  urls db' = urls db ++ [r] → Sql.select_by_code db (u_code r) = None →
  Sql.select_by_code db' (u_code r) = Some r.
Proof.
  unfold Sql.select_by_code. intros -> Hsel.
  induction (urls db) as [|x xs IH]; simpl in *.
  - by rewrite bool_decide_eq_true_2.
  - destruct (bool_decide (u_code x = u_code r)); [done | by apply IH].
Qed.

Lemma find_app_None {A} (f : A → bool) (l1 l2 : list A) :
  find f l1 = None → find f (l1 ++ l2) = find f l2.
Proof.
  induction l1 as [|x l1 IH]; simpl; [done |].
  destruct (f x); [done | apply IH].
Qed.

(** [shorten] leaves the table [urls] alone or adds one row, with a
    code that was free, and then answers 201 with that code. *)
Lemma shorten_urls ctx db :
  (urls (shorten urlparse ctx db).2 = urls db
   ∧ (shorten urlparse ctx db).1.2 ≠ 201)
  ∨ ∃ code,
      Sql.select_by_code db code = None
      ∧ urls (shorten urlparse ctx db).2
        = urls db ++ [Sql.new_row db code (submitted_url ctx)
                        (created_at_of ctx) (expires_at_of ctx)]
      ∧ (shorten urlparse ctx db).1
        = created_response ctx code (submitted_url ctx) (expires_at_of ctx)
      ∧ (submitted_code ctx ≠ "" ∧ code = submitted_code ctx
           ∧ validate_custom_code code = None
         ∨ ∃ k, code = generate_code (randbelow ctx k)).
Proof.
  pose proof (shorten_outcome ctx db) as Hout.
  pose proof (spam_check_frame ctx db) as (Hu & _ & _).
  destruct (shorten urlparse ctx db) as [resp db'].
  inversion Hout as [e He|He|? Hs'|r ? Hs' Hsel'|r ? Hs' Hsel' Hc'
                    |? Hs' Hsel' Hc' Hall|c Hv Hs' Hsel' Hc' Hfree|Hunread];
    subst; simpl; try (left; split; [done | discriminate]).
  right. exists c. split_and!; try done.
  destruct Hc' as [[Hne ->] | (_ & k & _ & -> & _)].
  - left. split_and!; try done. by destruct Hv.
  - right. by exists k.
Qed.

Lemma shorten_wf ctx db : db_wf db → db_wf (shorten urlparse ctx db).2.
Proof.
  intros Hwf.
  destruct (shorten_urls ctx db) as [[Hu _] | (code & Hfree & Hu & _)].
  - by apply (db_wf_urls db).
  - set (row := Sql.new_row db code (submitted_url ctx)
                  (created_at_of ctx) (expires_at_of ctx)) in *.
    apply (db_wf_urls (set_urls db (urls db ++ [row]))); [done |].
    apply (insert_url_wf db code (submitted_url ctx)
             (created_at_of ctx) (expires_at_of ctx)); [done |].
    by apply insert_url_Some.
Qed.

Lemma shorten_keeps_row ctx db code r :
  Sql.select_by_code db code = Some r →
  Sql.select_by_code (shorten urlparse ctx db).2 code = Some r.
Proof.
  intros Hsel.
  destruct (shorten_urls ctx db) as [[Hu _] | (c & _ & Hu & _)].
  - by rewrite (select_by_code_urls db).
  - by apply (select_by_code_app_old db _ code r _ Hu).
Qed.

(** What the decorator does to a view. *)
Lemma rate_limit_cases bucket (func : View) ctx db :
  ∃ db0,
    urls db0 = urls db ∧ spam_submissions db0 = spam_submissions db
    ∧ (rate_limit bucket func ctx db
       = ((JsonError "Rate limit exceeded. Try again later.", 429), db0)
       ∨ rate_limit bucket func ctx db = func ctx db0).
Proof.
  unfold rate_limit. destruct (RATE_LIMITS bucket) as [config|].
  - pose proof (check_rate_limit_frame (time_rate ctx) db (get_client_ip ctx)
                  bucket (rc_window config) (rc_limit config)) as (Hu & Hs & _).
    destruct (check_rate_limit _ _ _ _ _ _) as [db0 allowed].
    exists db0. simpl in Hu, Hs. split_and!; [done | done |].
    destruct allowed; [by right | by left].
  - exists db. eauto.
Qed.

Lemma rate_limit_allowed bucket (func : View) ctx db config :
  RATE_LIMITS bucket = Some config →
  (check_rate_limit (time_rate ctx) db (get_client_ip ctx) bucket
     (rc_window config) (rc_limit config)).2 = true →
  rate_limit bucket func ctx db
  = func ctx (check_rate_limit (time_rate ctx) db (get_client_ip ctx) bucket
                (rc_window config) (rc_limit config)).1.
Proof.
  intros Hcfg Hallowed. unfold rate_limit. rewrite Hcfg.
  destruct (check_rate_limit _ _ _ _ _ _) as [db0 allowed].
  simpl in *. by subst allowed.
Qed.

Lemma follow_keeps_link ctx db c u e :
  db_wf db → holds_link db c u e →
  (path_code ctx = c → utcnow_follow ctx ≤ fromisoformat e) →
  holds_link (follow ctx db).2 c u e.
Proof.
  intros Hwf (r & Hsel & Hurl & Hexp) Hkeep.
  destruct (select_by_code_Some _ _ _ Hsel) as [Hin Hcode].
  pose proof (follow_wf ctx db Hwf) as Hwf'.
  rewrite follow_db in *.
  destruct (negb _ || _); [by exists r |].
  destruct (Sql.select_by_code db (path_code ctx)) as [r'|] eqn:Hsel';
    [|by exists r].
  destruct (select_by_code_Some _ _ _ Hsel') as [Hin' Hcode'].
  destruct (decide (path_code ctx = c)) as [Hc|Hc].
  - assert (r' = r) by congruence. subst r'.
    replace (fromisoformat (u_expires_at r) <? utcnow_follow ctx) with false
      by (symmetry; apply Z.ltb_ge; rewrite Hexp; by apply Hkeep).
    exists (Sql.clicked r). simpl. split_and!; [|done|done].
    rewrite <- Hcode. by apply bump_click_count_select.
  - exists r. split_and!; [|done|done].
    assert (Hid : u_id r ≠ u_id r').
    { intros Heq. apply Hc.
      rewrite <- Hcode', <- Hcode. f_equal. symmetry.
      by apply (same_id_same_row db). }
    rewrite <- Hcode.
    destruct (_ <? _); simpl in *.
    + apply select_by_code_unique; [by destruct Hwf' |].
      by apply delete_by_id_others.
    + apply select_by_code_unique; [by destruct Hwf' |].
      by apply bump_click_count_others.
Qed.

Lemma holds_link_urls db db' c u e :
  urls db' = urls db → holds_link db c u e → holds_link db' c u e.
Proof.
  intros Hu (r & Hsel & Hrest). exists r.
  by rewrite (select_by_code_urls db).
Qed.

Lemma serve_keeps_link rq db c u e :
  db_wf db → holds_link db c u e → keeps_link c e rq →
  db_wf (serve urlparse rq db).2 ∧ holds_link (serve urlparse rq db).2 c u e.
Proof.
  intros Hwf Hlink Hkeep. destruct rq as [ctx|ctx]; simpl in *.
  - unfold route_shorten.
    destruct (rate_limit_cases "shorten" (shorten urlparse) ctx db)
      as (db0 & Hu & _ & [-> | ->]); simpl.
    + split; [by apply (db_wf_urls db) | by apply (holds_link_urls db)].
    + apply (db_wf_urls db db0 Hu) in Hwf.
      apply (holds_link_urls db db0 _ _ _ Hu) in Hlink.
      split; [by apply shorten_wf |].
      destruct Hlink as (r & Hsel & Hrest). exists r.
      split; [by apply shorten_keeps_row | done].
  - unfold route_follow.
    destruct (rate_limit_cases "follow" follow ctx db)
      as (db0 & Hu & _ & [-> | ->]); simpl.
    + split; [by apply (db_wf_urls db) | by apply (holds_link_urls db)].
    + apply (db_wf_urls db db0 Hu) in Hwf.
      apply (holds_link_urls db db0 _ _ _ Hu) in Hlink.
      split; [by apply follow_wf | by apply follow_keeps_link].
Qed.

Lemma serve_all_keeps_link rs : ∀ db c u e,
  db_wf db → holds_link db c u e → Forall (keeps_link c e) rs →
  db_wf (serve_all urlparse rs db) ∧ holds_link (serve_all urlparse rs db) c u e.
Proof.
  induction rs as [|rq rs IH]; intros db c u e Hwf Hlink Hall; simpl.
  - done.
  - apply Forall_cons in Hall as [Hrq Hall].
    destruct (serve_keeps_link rq db c u e Hwf Hlink Hrq) as [Hwf' Hlink'].
    by apply IH.
Qed.

(** *** Round trip *)

(** The code of a new link is one that [follow] looks up. *)
Lemma created_code_length ctx db code :
  draws_in_range ctx →
  (submitted_code ctx ≠ "" ∧ code = submitted_code ctx
     ∧ validate_custom_code code = None
   ∨ ∃ k, code = generate_code (randbelow ctx k)) →
  Py.truthy code = true ∧ Py.len code ≤ 32.
Proof.
  intros Hdraws [(Hne & -> & Hval) | (k & ->)].
  - split; [by apply truthy_true |].
    apply validate_custom_code_accepts in Hval; [|done].
    by destruct Hval as (_ & ? & _).
  - split; [apply generate_code_truthy |].
    rewrite generate_code_len; [lia | apply Hdraws].
Qed.

(** The two consistency conditions on the table hold in every state the
    service reaches from an empty table. *)
Lemma shorten_codes_ok ctx db :
  draws_in_range ctx → codes_ok db → codes_ok (shorten urlparse ctx db).2.
Proof.
  intros Hdraws Hok r.
  destruct (shorten_urls ctx db) as [[-> _] | (code & _ & -> & _ & Hc)];
    [apply Hok |].
  intros [Hin | ->%list_elem_of_singleton]%elem_of_app; [by apply Hok |].
  by apply (created_code_length ctx db).
Qed.

Lemma follow_codes_ok ctx db : codes_ok db → codes_ok (follow ctx db).2.
Proof.
  intros Hok r. rewrite follow_db.
  destruct (negb _ || _); [apply Hok |].
  destruct (Sql.select_by_code db (path_code ctx)) as [r0|]; [|apply Hok].
  destruct (_ <? _); simpl.
  - intros [_ Hin]%list_elem_of_filter. by apply Hok.
  - intros (x & -> & Hin)%list_elem_of_fmap.
    case_decide; exact (Hok x Hin).
Qed.

Lemma codes_ok_urls db db' : urls db' = urls db → codes_ok db → codes_ok db'.
Proof. unfold codes_ok. by intros ->. Qed.

Lemma serve_invariant rq db :
  request_ok rq → db_wf db → codes_ok db →
  db_wf (serve urlparse rq db).2 ∧ codes_ok (serve urlparse rq db).2.
Proof.
  intros Hrq Hwf Hok. destruct rq as [ctx|ctx]; simpl in *.
  - unfold route_shorten.
    destruct (rate_limit_cases "shorten" (shorten urlparse) ctx db)
      as (db0 & Hu & _ & [-> | ->]); simpl.
    + split; [by apply (db_wf_urls db) | by apply (codes_ok_urls db)].
    + apply (db_wf_urls db db0 Hu) in Hwf.
      apply (codes_ok_urls db db0 Hu) in Hok.
      split; [by apply shorten_wf | by apply shorten_codes_ok].
  - unfold route_follow.
    destruct (rate_limit_cases "follow" follow ctx db)
      as (db0 & Hu & _ & [-> | ->]); simpl.
    + split; [by apply (db_wf_urls db) | by apply (codes_ok_urls db)].
    + apply (db_wf_urls db db0 Hu) in Hwf.
      apply (codes_ok_urls db db0 Hu) in Hok.
      split; [by apply follow_wf | by apply follow_codes_ok].
Qed.

Lemma serve_all_invariant rs : ∀ db,
  Forall request_ok rs → db_wf db → codes_ok db →
  db_wf (serve_all urlparse rs db) ∧ codes_ok (serve_all urlparse rs db).
Proof.
  induction rs as [|rq rs IH]; intros db Hall Hwf Hok; simpl; [done |].
  apply Forall_cons in Hall as [Hrq Hall].
  destruct (serve_invariant rq db Hrq Hwf Hok) as [Hwf' Hok'].
  by apply IH.
Qed.

(** X6: in every state the service reaches from an empty table, by
    requests whose random draws are in range, no two rows of [urls]
    share a code or an id, and every stored code is not empty and has at
    most 32 characters, so [follow] looks it up. *)
Lemma reachable_invariant rs db :
  urls db = [] → Forall request_ok rs →
  db_wf (serve_all urlparse rs db) ∧ codes_ok (serve_all urlparse rs db).
Proof.
  intros Hempty Hall. apply serve_all_invariant; [done | |].
  - unfold db_wf. rewrite Hempty. split; apply NoDup_nil; done.
  - intros r. rewrite Hempty. by intros ?%elem_of_nil.
Qed.

(** A 201 answer of the route means the link is in the table. *)
Lemma route_shorten_created ctx db c u su e :
  db_wf db → draws_in_range ctx →
  (route_shorten urlparse ctx db).1 = (JsonCreated c u su e, 201) →
  u = submitted_url ctx ∧ e = expires_at_of ctx
  ∧ su = build_short_url ctx c
  ∧ Py.truthy c = true ∧ Py.len c ≤ 32
  ∧ db_wf (route_shorten urlparse ctx db).2
  ∧ Sql.select_by_code db c = None
  ∧ Sql.select_by_code (route_shorten urlparse ctx db).2 c
    = Some (Sql.new_row db c u (created_at_of ctx) e).
Proof.
  intros Hwf Hdraws Hresp. unfold route_shorten in *.
  destruct (rate_limit_cases "shorten" (shorten urlparse) ctx db)
    as (db0 & Hu & _ & [Heq | Heq]); rewrite Heq in *; [done |].
  apply (db_wf_urls db db0 Hu) in Hwf.
  pose proof (shorten_wf ctx db0 Hwf) as Hwf'.
  destruct (shorten_urls ctx db0) as [[_ Hno] | (code & Hfree & Hurls & Hr & Hc)].
  - rewrite Hresp in Hno. done.
  - rewrite Hr in Hresp. injection Hresp as -> <- <- <-.
    destruct (created_code_length ctx db0 c Hdraws Hc) as [Htr Hlen].
    split_and!; try done.
    + by rewrite <- (select_by_code_urls db db0).
    + assert (Hrow : Sql.new_row db c (submitted_url ctx) (created_at_of ctx)
                       (expires_at_of ctx)
                     = Sql.new_row db0 c (submitted_url ctx) (created_at_of ctx)
                         (expires_at_of ctx))
        by (unfold Sql.new_row; by rewrite Hu).
      rewrite Hrow.
      by apply (select_by_code_app_new db0 _ (Sql.new_row db0 c _ _ _)).
Qed.

(** The round trip for a URL on one line: after [POST /shorten] has
    answered 201 with code [c] for the URL [u] (the submitted URL,
    stripped), without carriage return or line feed, and expiry [e], and
    whatever requests were served since -- among them no resolve of [c]
    later than [e] -- a resolve of [c] at a time up to [e] redirects
    with 302 to exactly [u] and adds exactly one click to the record of
    [c], leaving the other records as they are.  Through the route this
    is the answer whenever the rate limiter lets the request in. *)
Lemma shorten_follow_roundtrip (ctx : Ctx) (db : Db) (c u su : string)
    (e : Z) (rs : list Request) (ctx' : Ctx) :
  db_wf db → draws_in_range ctx → single_line u →
  (route_shorten urlparse ctx db).1 = (JsonCreated c u su e, 201) →
  Forall (keeps_link c e) rs →
  path_code ctx' = c → utcnow_follow ctx' ≤ fromisoformat e →
  let db1 := serve_all urlparse rs (route_shorten urlparse ctx db).2 in
  u = submitted_url ctx
  ∧ (rs = [] → Sql.select_by_code db1 c
               = Some (Sql.new_row db c u (created_at_of ctx) e))
  ∧ ∃ r, Sql.select_by_code db1 c = Some r
         ∧ u_original_url r = u ∧ u_expires_at r = e
         ∧ follow ctx' db1
           = ((Redirect u, 302), Sql.bump_click_count db1 (u_id r))
         ∧ Sql.select_by_code (follow ctx' db1).2 c = Some (Sql.clicked r)
         ∧ u_click_count (Sql.clicked r) = u_click_count r + 1
         ∧ (∀ r', r' ∈ urls db1 → r' ≠ r → r' ∈ urls (follow ctx' db1).2)
         ∧ ((check_rate_limit (time_rate ctx') db1 (get_client_ip ctx')
               "follow" 60 120).2 = true →
            (route_follow ctx' db1).1 = (Redirect u, 302)
            ∧ Sql.select_by_code (route_follow ctx' db1).2 c
              = Some (Sql.clicked r)).
Proof.
  intros Hwf Hdraws Hline Hresp Hrs Hpath Hlive db1.
  destruct (route_shorten_created ctx db c u su e Hwf Hdraws Hresp)
    as (Hu & He & _ & Htr & Hlen & Hwf1 & _ & Hnew).
  split; [done |]. split; [by intros -> |].
  assert (Hlink : holds_link (route_shorten urlparse ctx db).2 c u e)
    by (eexists; split; [exact Hnew | done]).
  destruct (serve_all_keeps_link rs _ c u e Hwf1 Hlink Hrs)
    as [Hwf2 (r & Hsel & Hurl & Hexp)].
  fold db1 in Hwf2, Hsel.
  exists r. rewrite <- Hpath in Hsel, Htr, Hlen. rewrite <- Hexp in Hlive.
  destruct (follow_live ctx' db1 r Hwf2 Hsel Htr Hlen Hlive)
    as (Hf & Hafter & Hothers).
  rewrite Hurl, (redirect_answer_single_line u Hline) in Hf.
  rewrite Hpath in Hsel, Hafter.
  split_and!; try done.
  intros Hallowed. unfold route_follow.
  rewrite (rate_limit_allowed "follow" follow ctx' db1
             {| rc_limit := 120; rc_window := 60 |} eq_refl Hallowed).
  simpl rc_window. simpl rc_limit.
  pose proof (check_rate_limit_frame (time_rate ctx') db1 (get_client_ip ctx')
                "follow" 60 120) as (Hu1 & _ & _).
  destruct (check_rate_limit _ _ _ _ _ _) as [db2 allowed].
  simpl in Hu1. simpl.
  apply (db_wf_urls db1 db2 Hu1) in Hwf2.
  rewrite <- Hpath, <- (select_by_code_urls db1 db2 _ Hu1) in Hsel.
  destruct (follow_live ctx' db2 r Hwf2 Hsel Htr Hlen Hlive)
    as (Hf2 & Hafter2 & _).
  rewrite Hf2. simpl. rewrite Hurl, (redirect_answer_single_line u Hline).
  split; [done |].
  rewrite Hf2, Hpath in Hafter2. done.
Qed.

(** *** Repeated submissions of a URL *)

(** Past the validations and the spam check, [shorten] answers 200
    with the stored code exactly when the table has a row for the URL,
    whether or not that row has expired; nothing is inserted and a
    custom code of the request is not looked at. *)
Lemma shorten_hit_iff_stored ctx db :
  validated urlparse ctx → (spam_check ctx db).2 = false →
  match Sql.select_by_original_url db (submitted_url ctx) with
  | Some r =>
      shorten urlparse ctx db
      = ((JsonExisting (u_code r) (u_original_url r)
            (build_short_url ctx (u_code r))
            "This URL was already shortened.", 200),
         (spam_check ctx db).1)
      ∧ urls (shorten urlparse ctx db).2 = urls db
  | None => (shorten urlparse ctx db).1.2 ≠ 200
  end.
Proof.
  intros Hv Hs. pose proof (shorten_outcome ctx db) as Hout.
  pose proof (spam_check_frame ctx db) as (Hu & _ & _).
  destruct (shorten urlparse ctx db) as [resp db'].
  inversion Hout as [e He|He|? Hs'|r ? Hs' Hsel'|r ? Hs' Hsel' Hc'
                    |? Hs' Hsel' Hc' Hall|c ? Hs' Hsel' Hc' Hfree|Hunread];
    subst; try (outcome_facts; exfalso; congruence);
    rewrite Hsel'; simpl; done.
Qed.

(** X14: when [shorten] has answered 201 or 200 with a code for a
    URL, the next [shorten] for the same URL that passes the validations
    and the spam check answers 200 with that same code, with or without
    a custom code in the request. *)
Lemma shorten_again_same_code ctx1 ctx2 db code :
  (∃ u su e, (shorten urlparse ctx1 db).1 = (JsonCreated code u su e, 201))
  ∨ (∃ u su m, (shorten urlparse ctx1 db).1 = (JsonExisting code u su m, 200)) →
  submitted_url ctx2 = submitted_url ctx1 →
  validated urlparse ctx2 →
  (spam_check ctx2 (shorten urlparse ctx1 db).2).2 = false →
  ∃ u su m,
    (shorten urlparse ctx2 (shorten urlparse ctx1 db).2).1
    = (JsonExisting code u su m, 200).
Proof.
  intros Hfirst Hsame Hv2 Hs2.
  pose proof (shorten_hit_iff_stored ctx2 _ Hv2 Hs2) as Hhit.
  assert (Hstored : ∃ r,
    Sql.select_by_original_url (shorten urlparse ctx1 db).2 (submitted_url ctx1)
    = Some r ∧ u_code r = code).
  { pose proof (shorten_outcome ctx1 db) as Hout.
    pose proof (spam_check_frame ctx1 db) as (Hu & _ & _).
    destruct (shorten urlparse ctx1 db) as [resp db'].
    simpl in Hfirst.
    inversion Hout as [e He|He|? Hs'|r ? Hs' Hsel'|r ? Hs' Hsel' Hc'
                      |? Hs' Hsel' Hc' Hall|c ? Hs' Hsel' Hc' Hfree|Hunread];
      subst; simpl;
      try (destruct Hfirst as [(? & ? & ? & [=]) | (? & ? & ? & [=])]; fail).
    - exists r. destruct Hfirst as [(? & ? & ? & [=]) | (? & ? & ? & [= <- _ _ _])].
      split; [|done]. unfold Sql.select_by_original_url in *. by rewrite Hu.
    - destruct Hfirst as [(? & ? & ? & [= <- _ _ _]) | (? & ? & ? & [=])].
      exists (Sql.new_row db c (submitted_url ctx1) (created_at_of ctx1)
                (expires_at_of ctx1)).
      split; [|reflexivity].
      unfold Sql.select_by_original_url in *. simpl.
      rewrite (find_app_None _ _ _ Hsel'). simpl.
      by rewrite bool_decide_eq_true_2. }
  destruct Hstored as (r & Hsel & Hcode).
  rewrite Hsame, Hsel in Hhit. destruct Hhit as [-> _]. simpl.
  rewrite Hcode. eauto.
Qed.

End Shorten.

(** ** The views on concrete requests *)

Lemma example_draws_in_range url t : draws_in_range (Ex.post url t).
Proof. intros i. simpl. apply Z.mod_pos_bound. reflexivity. Qed.

Lemma custom_code_validation_witness :
  validate_url Urllib.urlparse "https://example.com/a" = Returned None
  ∧ acceptable_code "my-link"
  ∧ (shorten Urllib.urlparse
       (Ex.post_custom "https://example.com/a" "my-link" 1000) Ex.empty_db).1.2
    ≠ 400.
Proof.
  destruct (custom_code_validation Urllib.urlparse
              (Ex.post_custom "https://example.com/a" "my-link" 1000)
              Ex.empty_db)
    as (_ & Hstatus & _ & _ & Hascii).
  - vm_compute. reflexivity.
  - vm_compute. discriminate.
  - assert (Hok : acceptable_code "my-link").
    { apply Hascii; vm_compute; [discriminate | discriminate | reflexivity]. }
    split_and!; [vm_compute; reflexivity | exact Hok | apply Hstatus, Hok].
Defined.

(** C6 as stated fails for a code with a letter outside ASCII: "caf"
    followed by U+00E9 has a character that is not in [A-Za-z0-9_-], and
    it passes the validation; [shorten] stores the link under it. *)
Lemma custom_code_latin1_accepted :
  Py.all is_code_char_ascii Ex.cafe = false
  ∧ Py.len Ex.cafe = 4
  ∧ validate_custom_code Ex.cafe = None
  ∧ (shorten Urllib.urlparse
       (Ex.post_custom "https://example.com/a" Ex.cafe 1000) Ex.empty_db).1
    = (JsonCreated Ex.cafe "https://example.com/a"
         ("http://localhost:5000/" +:+ Ex.cafe) 87400, 201).
Proof. split_and!; vm_compute; reflexivity. Qed.

Lemma spam_check_throttles_witness :
  validated Urllib.urlparse (Ex.post "https://example.com/a" 1000)
  ∧ Sql.select_by_original_url Ex.one_link_db "https://example.com/a"
    = Some Ex.link
  ∧ ∀ resp,
      (submissions Urllib.urlparse
         [Ex.post "https://example.com/a" 1000;
          Ex.post "https://example.com/a" 1010;
          Ex.post "https://example.com/a" 1020;
          Ex.post "https://example.com/a" 1029] Ex.one_link_db).1 !! 3%nat
      = Some resp →
      resp = spam_response.
Proof.
  assert (Hv : ∀ t, validated Urllib.urlparse (Ex.post "https://example.com/a" t)).
  { intros t. split; vm_compute; reflexivity. }
  split_and!; [apply Hv | reflexivity |].
  intros resp Hresp.
  destruct (spam_check_throttles Urllib.urlparse
              (Ex.post "https://example.com/a" 1000) Ex.one_link_db
              [Ex.post "https://example.com/a" 1010;
               Ex.post "https://example.com/a" 1020;
               Ex.post "https://example.com/a" 1029] (Hv 1000))
    as (_ & _ & _ & _ & Hseq).
  apply (Hseq I) with (i := 3%nat).
  - repeat constructor; try apply Hv; vm_compute; reflexivity.
  - exact Hresp.
  - lia.
Defined.

Lemma insert_unique_url_attempts_witness :
  insert_unique_url_on Ex.racing (fun i => Z.of_nat i)
    (Ex.empty_db, [Ex.link]) "https://example.com/b" 2000 88400
  = (Some "0000001",
     (set_urls Ex.empty_db
        [Ex.link;
         {| u_id := 2; u_code := "0000001";
            u_original_url := "https://example.com/b";
            u_created_at := 2000; u_expires_at := 88400;
            u_click_count := 0 |}], []))
  ∧ shorten Urllib.urlparse (Ex.stuck_post "https://example.com/b" 2000)
      Ex.one_link_db
    = ((JsonError "Unable to generate a unique short code.", 409),
       (spam_check (Ex.stuck_post "https://example.com/b" 2000)
          Ex.one_link_db).1).
Proof.
  destruct (insert_unique_url_attempts Urllib.urlparse Ex.racing
              (Ex.empty_db, [Ex.link])
              (Ex.stuck_post "https://example.com/b" 2000) Ex.one_link_db
              "https://example.com/b" 2000 88400 (fun i => Z.of_nat i))
    as (_ & _ & Hrace & _ & Hfull).
  split.
  - destruct (Hrace 9%nat 0%nat (Ex.empty_db, [Ex.link])
                (set_urls Ex.empty_db [Ex.link], [])) as [_ Hnext].
    + reflexivity.
    + reflexivity.
    + unfold insert_unique_url_on. rewrite Hnext. reflexivity.
  - destruct Hfull as [Hiff _].
    + split; vm_compute; reflexivity.
    + vm_compute. reflexivity.
    + vm_compute. reflexivity.
    + vm_compute. reflexivity.
    + apply Hiff. intros j _. exists Ex.link. vm_compute. reflexivity.
Defined.

Lemma shorten_follow_roundtrip_witness :
  (route_shorten Urllib.urlparse (Ex.post "https://example.com/a" 1000)
     Ex.empty_db).1
  = (JsonCreated "0000000" "https://example.com/a"
       "http://localhost:5000/0000000" 87400, 201)
  ∧ ∃ r,
      follow (Ex.get "0000000" 87400)
        (serve_all Urllib.urlparse
           [GetCode (Ex.get "0000000" 2000);
            PostShorten (Ex.post "https://example.com/b" 3000)]
           (route_shorten Urllib.urlparse (Ex.post "https://example.com/a" 1000)
              Ex.empty_db).2)
      = ((Redirect "https://example.com/a", 302),
         Sql.bump_click_count
           (serve_all Urllib.urlparse
              [GetCode (Ex.get "0000000" 2000);
               PostShorten (Ex.post "https://example.com/b" 3000)]
              (route_shorten Urllib.urlparse
                 (Ex.post "https://example.com/a" 1000) Ex.empty_db).2)
           (u_id r)).
Proof.
  split; [vm_compute; reflexivity |].
  destruct (shorten_follow_roundtrip Urllib.urlparse
              (Ex.post "https://example.com/a" 1000) Ex.empty_db
              "0000000" "https://example.com/a" "http://localhost:5000/0000000"
              87400
              [GetCode (Ex.get "0000000" 2000);
               PostShorten (Ex.post "https://example.com/b" 3000)]
              (Ex.get "0000000" 87400))
    as (_ & _ & r & _ & _ & _ & Hf & _).
  - split; apply NoDup_nil; exact I.
  - apply example_draws_in_range.
  - split; reflexivity.
  - vm_compute. reflexivity.
  - repeat constructor. intros _. vm_compute. discriminate.
  - reflexivity.
  - vm_compute. discriminate.
  - exists r. exact Hf.
Defined.

(** C5 on a URL with a line feed inside: [shorten] accepts it and
    answers 201 with the code "0000000"; the resolve of that code, well
    before the expiry, fails with 500 when the redirect is built, after
    the click has been counted. *)
Theorem follow_url_with_line_feed_fails :
  (shorten Urllib.urlparse (Ex.post Ex.two_lines 1000) Ex.empty_db).1
  = (JsonCreated "0000000" Ex.two_lines "http://localhost:5000/0000000" 87400,
     201)
  ∧ utcnow_follow (Ex.get "0000000" 2000) < fromisoformat 87400
  ∧ follow (Ex.get "0000000" 2000)
      (shorten Urllib.urlparse (Ex.post Ex.two_lines 1000) Ex.empty_db).2
    = ((InternalServerError, 500),
       set_urls
         (shorten Urllib.urlparse (Ex.post Ex.two_lines 1000) Ex.empty_db).2
         [Sql.clicked Ex.two_lines_link]).
Proof. split_and!; vm_compute; reflexivity. Qed.

(** C1 on a record that has expired and was not resolved since: the
    link of https://example.com/a expired at second 87400; at second
    200000 [shorten] answers 200 with its code all the same, and the
    code it has just handed out is not found when it is resolved. *)
Theorem shorten_hit_on_expired_record :
  urls Ex.one_link_db = [Ex.link]
  ∧ fromisoformat (u_expires_at Ex.link)
    < utcnow_created (Ex.post "https://example.com/a" 200000)
  ∧ (shorten Urllib.urlparse (Ex.post "https://example.com/a" 200000)
       Ex.one_link_db).1
    = (JsonExisting "0000000" "https://example.com/a"
         "http://localhost:5000/0000000" "This URL was already shortened.", 200)
  ∧ (follow (Ex.get "0000000" 200000)
       (shorten Urllib.urlparse (Ex.post "https://example.com/a" 200000)
          Ex.one_link_db).2).1
    = not_found "0000000".
Proof. split_and!; vm_compute; reflexivity. Qed.

(** * Further properties of the application *)

(** ** The encoding can be read back *)

Lemma index_in_alphabet d :
  0 ≤ d < 62 → index_in (alphabet_at d) BASE62_ALPHABET = d.
Proof.
  intros Hd.
  assert (Hall : forallb (fun n =>
            index_in (alphabet_at (Z.of_nat n)) BASE62_ALPHABET =? Z.of_nat n)
            (seq 0 62) = true) by (vm_compute; reflexivity).
  rewrite forallb_forall in Hall.
  assert (Hin : In (Z.to_nat d) (seq 0 62)) by (apply in_seq; lia).
  specialize (Hall (Z.to_nat d) Hin).
  rewrite Z2Nat.id in Hall by lia. by apply Z.eqb_eq.
Qed.

Lemma base62_value_join acc ds :
  Forall (fun d => 0 ≤ d < 62) ds →
  base62_value_from acc (Py.join (map alphabet_at ds))
  = fold_left (fun a d => a * 62 + d) ds acc.
Proof.
  revert acc. induction ds as [|d ds IH]; intros acc Hds;
    cbn [map Py.join base62_value_from fold_left]; [done |].
  apply Forall_cons in Hds as [Hd Hds].
  by rewrite index_in_alphabet, IH.
Qed.

Lemma fold_leading_zeros k ds :
  fold_left (fun a d => a * 62 + d) (replicate k 0 ++ ds) 0
  = fold_left (fun a d => a * 62 + d) ds 0.
Proof. induction k as [|k IH]; simpl; [done | exact IH]. Qed.

Lemma repeat_char_zero n :
  Py.repeat_char "0" n = Py.join (map alphabet_at (replicate (Z.to_nat n) 0)).
Proof.
  unfold Py.repeat_char. f_equal.
  induction (Z.to_nat n) as [|k IH]; simpl; [done | by rewrite IH].
Qed.

(** What [base62_encode] returns for a value that is not negative: the
    significant digits of the value behind some zeros. *)
Lemma base62_encode_digits v m :
  0 ≤ v →
  ∃ k ds, base62_encode v m = Py.join (map alphabet_at (replicate k 0 ++ ds))
          ∧ Forall (fun d => 0 ≤ d < 62) ds
          ∧ fold_left (fun a d => a * 62 + d) ds 0 = v
          ∧ (m ≤ Z.of_nat (k + length ds)).
Proof.
  intros Hv. unfold base62_encode.
  destruct (v =? 0) eqn:Hz.
  - apply Z.eqb_eq in Hz. subst v.
    change (Py.len "0") with 1.
    destruct (1 <? m) eqn:Hm.
    + apply Z.ltb_lt in Hm. exists (Z.to_nat (m - 1)), [0].
      split_and!; [| repeat constructor; lia | done | simpl; lia].
      by rewrite repeat_char_zero, map_app, join_app.
    + apply Z.ltb_ge in Hm. exists 0%nat, [0].
      split_and!; [done | repeat constructor; lia | done | simpl; lia].
  - apply Z.eqb_neq in Hz.
    set (n := base62_fuel v).
    assert (Hfuel : v < 2 ^ Z.of_nat n) by (apply base62_fuel_enough; lia).
    assert (Hn : 0 ≤ v < 62 ^ Z.of_nat n).
    { split; [done |]. eapply Z.lt_le_trans; [exact Hfuel |].
      apply Z.pow_le_mono_l. lia. }
    destruct (base62_loop_digits n v n [] Hn Hfuel) as (ds & Hds & Hlen & Hloop).
    rewrite Hloop. simpl app. rewrite rev_involutive.
    assert (Hrange : Forall (fun d => 0 ≤ d < 62) ds).
    { pose proof (digits62_range n v) as Hr. rewrite Hds in Hr.
      by apply Forall_app in Hr as [_ ?]. }
    assert (Hval : fold_left (fun a d => a * 62 + d) ds 0 = v).
    { rewrite <- (fold_leading_zeros (n - length ds) ds), <- Hds.
      by apply digits62_value. }
    unfold Py.len. rewrite join_length, length_map.
    destruct (Z.of_nat (length ds) <? m) eqn:Hm.
    + apply Z.ltb_lt in Hm. exists (Z.to_nat (m - Z.of_nat (length ds))), ds.
      split_and!; [| done | done | lia].
      by rewrite repeat_char_zero, map_app, join_app.
    + apply Z.ltb_ge in Hm. exists 0%nat, ds.
      split_and!; [done | done | done | simpl; lia].
Qed.

(** X1: for every value that is not negative and every minimal length,
    the value can be read back from the string [base62_encode] returns,
    the string has at least the minimal length and only characters of
    [0-9A-Za-z]; so two different values never get the same code. *)
Theorem base62_encode_read_back (v v' m : Z) :
  0 ≤ v →
  base62_value (base62_encode v m) = v
  ∧ m ≤ Py.len (base62_encode v m)
  ∧ Py.all is_base62_char (base62_encode v m) = true
  ∧ (0 ≤ v' → base62_encode v m = base62_encode v' m → v = v').
Proof.
  intros Hv.
  assert (Hback : ∀ x, 0 ≤ x → base62_value (base62_encode x m) = x).
  { intros x Hx.
    destruct (base62_encode_digits x m Hx) as (k & ds & -> & Hr & Hval & _).
    unfold base62_value. rewrite base62_value_join, fold_leading_zeros; [done |].
    apply Forall_app. split; [|done].
    apply Forall_forall. intros d ->%elem_of_replicate_inv. lia. }
  destruct (base62_encode_digits v m Hv) as (k & ds & Heq & Hr & Hval & Hlen).
  split_and!.
  - by apply Hback.
  - rewrite Heq. unfold Py.len. rewrite join_length, length_map, length_app,
      length_replicate. lia.
  - rewrite Heq, all_join, forallb_forall.
    intros c [d [<- Hd]]%in_map_iff. apply alphabet_at_in_range.
    apply list_elem_of_In, elem_of_app in Hd as [->%elem_of_replicate_inv | Hd];
      [lia |].
    rewrite Forall_forall in Hr. by apply Hr.
  - intros Hv' Hsame. rewrite <- (Hback v Hv), <- (Hback v' Hv'). by rewrite Hsame.
Qed.

Lemma base62_encode_read_back_witness :
  base62_value (base62_encode 3521614606207 7) = 3521614606207
  ∧ base62_encode 3521614606207 7 = "zzzzzzz".
Proof.
  destruct (base62_encode_read_back 3521614606207 0 7) as (Hback & _).
  - lia.
  - split; [exact Hback | reflexivity].
Defined.

(** ** Every way a resolve can end *)

(** The three ways [follow] goes. *)
Lemma follow_cases ctx db :
  ((path_code ctx = "" ∨ 32 < Py.len (path_code ctx)
    ∨ Sql.select_by_code db (path_code ctx) = None)
   ∧ follow ctx db = (not_found (path_code ctx), db))
  ∨ (∃ r, path_code ctx ≠ "" ∧ Py.len (path_code ctx) ≤ 32
          ∧ Sql.select_by_code db (path_code ctx) = Some r
          ∧ fromisoformat (u_expires_at r) < utcnow_follow ctx
          ∧ follow ctx db
            = (not_found (path_code ctx), Sql.delete_by_id db (u_id r)))
  ∨ (∃ r, path_code ctx ≠ "" ∧ Py.len (path_code ctx) ≤ 32
          ∧ Sql.select_by_code db (path_code ctx) = Some r
          ∧ utcnow_follow ctx ≤ fromisoformat (u_expires_at r)
          ∧ follow ctx db
            = (redirect_answer (u_original_url r),
               Sql.bump_click_count db (u_id r))).
Proof.
  unfold follow.
  destruct (Py.truthy (path_code ctx)) eqn:Htr; simpl.
  2: { apply truthy_false in Htr. left. split; [by left | done]. }
  apply truthy_true in Htr.
  destruct (32 <? Py.len (path_code ctx)) eqn:Hlen.
  { apply Z.ltb_lt in Hlen. left. split; [right; by left | done]. }
  apply Z.ltb_ge in Hlen.
  destruct (Sql.select_by_code db (path_code ctx)) as [r|] eqn:Hsel.
  2: { left. split; [right; by right | done]. }
  destruct (fromisoformat (u_expires_at r) <? utcnow_follow ctx) eqn:Hexp.
  - apply Z.ltb_lt in Hexp. right. left. exists r. done.
  - apply Z.ltb_ge in Hexp. right. right. exists r.
    split_and!; try done. unfold redirect_answer. by destruct (redirect _).
Qed.

Lemma redirect_answer_status u :
  ((redirect_answer u).2 = 302 ↔ single_line u)
  ∧ ((redirect_answer u).2 = 500 ↔ ¬ single_line u)
  ∧ (redirect_answer u = (Redirect u, 302)
     ∨ redirect_answer u = (InternalServerError, 500)).
Proof.
  destruct (decide (Py.char_in "013" u = false ∧ Py.char_in "010" u = false))
    as [Hline | Hno].
  - rewrite (redirect_answer_single_line u Hline). simpl.
    split_and!; [done | | by left]. split; [done | by intros []].
  - rewrite (redirect_answer_newline u Hno). simpl.
    split_and!; [| done | by right]. split; [done | by intros ?].
Qed.

(** X2: [follow] answers 302, 500 or the not-found page.  A code that
    is not empty, has at most 32 characters and has a stored row that
    has not expired gets 302 when the URL of the row has no carriage
    return and no line feed, and 500 when it has one; every other
    request gets the not-found page.  For an empty, an over-long or an
    unknown code the database is left as it is (an over-long code is
    not even looked up).  [follow] never adds a row: every row it
    leaves is a row it found, as it was or with one more click; and it
    writes to no counter table. *)
Theorem follow_answers (ctx : Ctx) (db : Db) :
  ((follow ctx db).1.2 = 302 ∨ (follow ctx db).1 = (InternalServerError, 500)
   ∨ (follow ctx db).1 = not_found (path_code ctx))
  ∧ ((follow ctx db).1.2 = 302 ↔
     path_code ctx ≠ "" ∧ Py.len (path_code ctx) ≤ 32
     ∧ ∃ r, Sql.select_by_code db (path_code ctx) = Some r
            ∧ utcnow_follow ctx ≤ fromisoformat (u_expires_at r)
            ∧ single_line (u_original_url r))
  ∧ ((follow ctx db).1.2 = 500 ↔
     path_code ctx ≠ "" ∧ Py.len (path_code ctx) ≤ 32
     ∧ ∃ r, Sql.select_by_code db (path_code ctx) = Some r
            ∧ utcnow_follow ctx ≤ fromisoformat (u_expires_at r)
            ∧ ¬ single_line (u_original_url r))
  ∧ (path_code ctx = "" ∨ 32 < Py.len (path_code ctx)
     ∨ Sql.select_by_code db (path_code ctx) = None →
     follow ctx db = (not_found (path_code ctx), db))
  ∧ (∀ r', r' ∈ urls (follow ctx db).2 →
       r' ∈ urls db ∨ ∃ r, r ∈ urls db ∧ r' = Sql.clicked r)
  ∧ (length (urls (follow ctx db).2) ≤ length (urls db))%nat
  ∧ rate_limits (follow ctx db).2 = rate_limits db
  ∧ spam_submissions (follow ctx db).2 = spam_submissions db.
Proof.
  pose proof (follow_frame ctx db) as [Hrl Hsp].
  pose proof (follow_cases ctx db)
    as [[Hbad Hf] | [(r & Hne & Hlen & Hsel & Hexp & Hf)
                    | (r & Hne & Hlen & Hsel & Hlive & Hf)]].
  - rewrite Hf in *. simpl.
    split_and!; try done.
    + by right; right.
    + split; [done |]. intros (? & ? & r & Hsel & _).
      destruct Hbad as [? | [? | Hnone]]; [done | lia | congruence].
    + split; [done |]. intros (? & ? & r & Hsel & _).
      destruct Hbad as [? | [? | Hnone]]; [done | lia | congruence].
    + by left.
  - rewrite Hf in *. simpl.
    split_and!; try done.
    + by right; right.
    + split; [done |]. intros (_ & _ & r' & Hsel' & ? & _).
      assert (r' = r) by congruence. subst r'. lia.
    + split; [done |]. intros (_ & _ & r' & Hsel' & ? & _).
      assert (r' = r) by congruence. subst r'. lia.
    + intros [? | [? | Hnone]]; [done | lia | congruence].
    + intros r' [_ ?]%list_elem_of_filter. by left.
    + apply length_filter.
  - rewrite Hf in *. simpl.
    destruct (redirect_answer_status (u_original_url r)) as (H302 & H500 & Hans).
    split_and!; try done.
    + destruct Hans as [-> | ->]; [by left | right; by left].
    + rewrite H302. split.
      * intros Hline. split_and!; try done. by exists r.
      * intros (_ & _ & r' & Hsel' & _ & Hline).
        assert (r' = r) by congruence. by subst r'.
    + rewrite H500. split.
      * intros Hline. split_and!; try done. by exists r.
      * intros (_ & _ & r' & Hsel' & _ & Hline).
        assert (r' = r) by congruence. by subst r'.
    + intros [? | [? | Hnone]]; [done | lia | congruence].
    + intros r' (x & -> & Hx)%list_elem_of_fmap.
      case_decide; [right; by exists x | by left].
    + by rewrite length_map.
Qed.

Lemma follow_answers_witness :
  follow (Ex.get "0123456789012345678901234567890123" 2000) Ex.one_link_db
  = (not_found "0123456789012345678901234567890123", Ex.one_link_db).
Proof.
  destruct (follow_answers (Ex.get "0123456789012345678901234567890123" 2000)
              Ex.one_link_db) as (_ & _ & _ & Hbad & _).
  apply Hbad. right. left. vm_compute. reflexivity.
Defined.

(** ** Counting clicks *)

Lemma resolves_live ctxs : ∀ db r,
  db_wf db → r ∈ urls db →
  0 < Py.len (u_code r) → Py.len (u_code r) ≤ 32 →
  Forall (λ x, path_code x = u_code r
               ∧ utcnow_follow x ≤ fromisoformat (u_expires_at r)) ctxs →
  (resolves ctxs db).1
  = replicate (length ctxs) (redirect_answer (u_original_url r))
  ∧ db_wf (resolves ctxs db).2
  ∧ Sql.select_by_code (resolves ctxs db).2 (u_code r)
    = Some {| u_id := u_id r; u_code := u_code r;
              u_original_url := u_original_url r;
              u_created_at := u_created_at r;
              u_expires_at := u_expires_at r;
              u_click_count := u_click_count r + Z.of_nat (length ctxs) |}.
Proof.
  induction ctxs as [|x ctxs IH]; intros db r Hwf Hin Hpos Hlen Hall.
  - simpl. split_and!; [done | done |].
    rewrite (select_by_code_unique db r); [|by destruct Hwf | done].
    f_equal. destruct r. simpl. f_equal. lia.
  - apply Forall_cons in Hall as [[Hpath Hlive] Hall].
    assert (Hsel : Sql.select_by_code db (path_code x) = Some r).
    { rewrite Hpath. apply select_by_code_unique; [by destruct Hwf | done]. }
    assert (Htr : Py.truthy (path_code x) = true).
    { rewrite Hpath. destruct (u_code r); [by vm_compute in Hpos | done]. }
    destruct (follow_live x db r Hwf Hsel Htr) as (Hf & Hafter & _);
      [rewrite Hpath; lia | done |].
    pose proof (follow_wf x db Hwf) as Hwf'.
    simpl resolves. rewrite Hf in *. simpl in Hafter, Hwf'.
    destruct (select_by_code_Some _ _ _ Hafter) as [Hin' _].
    destruct (IH (Sql.bump_click_count db (u_id r)) (Sql.clicked r) Hwf' Hin')
      as (Hresp & Hwf2 & Hsel2); [done | done | done |].
    destruct (resolves ctxs (Sql.bump_click_count db (u_id r))) as [rest db2].
    simpl in *. split_and!; [by rewrite Hresp | done |].
    rewrite Hsel2. do 2 f_equal. lia.
Qed.

(** X3: resolving the code of a stored record n times in a row, each
    time no later than its expiry, answers the same thing n times: the
    302 redirect to the stored URL when that URL has no carriage return
    and no line feed, and the 500 answer when it has one.  In both
    cases the record is left with exactly n more clicks and nothing
    else changed in it. *)
Theorem resolves_count_clicks (ctxs : list Ctx) (db : Db) (r : UrlRow) :
  db_wf db → r ∈ urls db →
  0 < Py.len (u_code r) → Py.len (u_code r) ≤ 32 →
  Forall (λ x, path_code x = u_code r
               ∧ utcnow_follow x ≤ fromisoformat (u_expires_at r)) ctxs →
  (single_line (u_original_url r) →
   (resolves ctxs db).1
   = replicate (length ctxs) (Redirect (u_original_url r), 302))
  ∧ (¬ single_line (u_original_url r) →
     (resolves ctxs db).1
     = replicate (length ctxs) (InternalServerError, 500))
  ∧ Sql.select_by_code (resolves ctxs db).2 (u_code r)
    = Some {| u_id := u_id r; u_code := u_code r;
              u_original_url := u_original_url r;
              u_created_at := u_created_at r;
              u_expires_at := u_expires_at r;
              u_click_count := u_click_count r + Z.of_nat (length ctxs) |}.
Proof.
  intros Hwf Hin Hpos Hlen Hall.
  destruct (resolves_live ctxs db r Hwf Hin Hpos Hlen Hall) as (Hresp & _ & ?).
  split_and!; [| | done].
  - intros Hline. by rewrite Hresp, (redirect_answer_single_line _ Hline).
  - intros Hline. by rewrite Hresp, (redirect_answer_newline _ Hline).
Qed.

Lemma resolves_count_clicks_witness :
  Sql.select_by_code
    (resolves [Ex.get "0000000" 2000; Ex.get "0000000" 3000;
               Ex.get "0000000" 87400] Ex.one_link_db).2 "0000000"
  = Some {| u_id := 1; u_code := "0000000";
            u_original_url := "https://example.com/a";
            u_created_at := 1000; u_expires_at := 87400;
            u_click_count := 3 |}.
Proof.
  destruct (resolves_count_clicks
              [Ex.get "0000000" 2000; Ex.get "0000000" 3000;
               Ex.get "0000000" 87400] Ex.one_link_db Ex.link)
    as (_ & _ & Hsel).
  - split; apply NoDup_singleton.
  - apply list_elem_of_singleton. reflexivity.
  - reflexivity.
  - vm_compute. discriminate.
  - repeat constructor; vm_compute; discriminate.
  - exact Hsel.
Defined.

(** ** Counters of different keys *)

(** [check_rate_limit] by the counting rule. *)
Lemma check_rate_limit_next_window now db ip bucket W L :
  check_rate_limit now db ip bucket W L
  = (set_rate_limits db
       (<[(ip, bucket) := next_window now W (rate_limits db !! (ip, bucket))]>
          (rate_limits db)),
     bool_decide (count (next_window now W (rate_limits db !! (ip, bucket))) ≤ L)).
Proof.
  unfold next_window.
  destruct (rate_limits db !! (ip, bucket)) as [w|] eqn:Hrow.
  - case_decide as Hrun.
    + by apply check_rate_limit_incr.
    + apply check_rate_limit_reset. right. exists w. split; [done | lia].
  - apply check_rate_limit_reset. by left.
Qed.

(** X4: the counters of two different (address, bucket) pairs do not
    interact: each call gets the answer it would get without the other
    call, and the two orders of the calls leave the same database. *)
Theorem check_rate_limit_independent (db : Db) (ip1 b1 ip2 b2 : string)
    (now1 W1 L1 now2 W2 L2 : Z) :
  (ip1, b1) ≠ (ip2, b2) →
  (check_rate_limit now2 (check_rate_limit now1 db ip1 b1 W1 L1).1
     ip2 b2 W2 L2).2
  = (check_rate_limit now2 db ip2 b2 W2 L2).2
  ∧ (check_rate_limit now1 (check_rate_limit now2 db ip2 b2 W2 L2).1
       ip1 b1 W1 L1).2
    = (check_rate_limit now1 db ip1 b1 W1 L1).2
  ∧ (check_rate_limit now2 (check_rate_limit now1 db ip1 b1 W1 L1).1
       ip2 b2 W2 L2).1
    = (check_rate_limit now1 (check_rate_limit now2 db ip2 b2 W2 L2).1
         ip1 b1 W1 L1).1.
Proof.
  intros Hne. rewrite !check_rate_limit_next_window. simpl.
  rewrite !lookup_insert_ne by done.
  split_and!; [done | done |].
  unfold set_rate_limits. simpl. f_equal. by apply insert_insert_ne.
Qed.

Lemma check_rate_limit_independent_witness :
  (check_rate_limit 1030
     (check_rate_limit 1030 Ex.busy_db "10.0.0.1" "shorten" 60 10).1
     "10.0.0.1" "follow" 60 120).2 = true.
Proof.
  destruct (check_rate_limit_independent Ex.busy_db "10.0.0.1" "shorten"
              "10.0.0.1" "follow" 1030 60 10 1030 60 120) as (Hsame & _).
  - discriminate.
  - rewrite Hsame. reflexivity.
Defined.

(** ** Short URLs *)

(** X5: the short URL is the configured base URL -- [BASE_URL] when it
    is set and not empty, the host URL of the request otherwise --
    without its trailing slashes, then one slash, then the code. *)
Theorem build_short_url_shape (ctx : Ctx) (code : string) :
  ∃ base slashes,
    configured_base ctx = base +:+ slashes
    ∧ Py.all (λ c, bool_decide (c = "/"%char)) slashes = true
    ∧ (∀ a, base ≠ a +:+ "/")
    ∧ build_short_url ctx code = base +:+ "/" +:+ code.
Proof.
  unfold build_short_url, Py.rstrip_slash. fold (configured_base ctx).
  destruct (rstrip_with_spec (λ c, bool_decide (c = "/"%char))
              (configured_base ctx)) as (r & Hs & Hr & Hlast & _).
  exists (Py.rstrip_with (λ c, bool_decide (c = "/"%char)) (configured_base ctx)), r.
  split_and!; [done | done | | done].
  intros a Ha. specialize (Hlast a "/"%char Ha). done.
Qed.

(** ** More on shortening *)

Section ShortenMore.

Variable urlparse : string → Raising ParseResult.

Implicit Types (db : Db) (ctx : Ctx) (r : UrlRow).

(** Splits the side conditions of an outcome of [shorten]. *)
Ltac outcome_cases :=
  repeat match goal with
    | H : validated _ _ |- _ => destruct H
    | H : _ ∨ _ |- _ => destruct H
    | H : _ ∧ _ |- _ => destruct H
    | H : read_payload _ = None |- _ =>
        apply (unreadable_not_valid urlparse) in H
    end.

(** *** One code for a URL *)

Lemma NoDup_map_filter {A B} (f : A → B) (P : A → Prop)
    `{∀ x, Decision (P x)} (l : list A) :
  NoDup (map f l) → NoDup (map f (filter P l)).
Proof.
  induction l as [|x l IH]; simpl; [done |].
  intros [Hx Hl]%NoDup_cons. rewrite filter_cons.
  case_decide; simpl; [|by apply IH].
  apply NoDup_cons. split; [|by apply IH].
  intros (y & Hy & [_ Hin]%list_elem_of_filter)%list_elem_of_fmap.
  apply Hx. rewrite Hy. by apply list_elem_of_fmap_2.
Qed.

Lemma shorten_one_code_per_url ctx db :
  one_code_per_url db → one_code_per_url (shorten urlparse ctx db).2.
Proof.
  intros Hone. pose proof (shorten_outcome urlparse ctx db) as Hout.
  pose proof (spam_check_frame ctx db) as (Hu & _ & _).
  destruct (shorten urlparse ctx db) as [resp db'].
  unfold one_code_per_url in *.
  inversion Hout as [e He|He|? Hs'|r ? Hs' Hsel'|r ? Hs' Hsel' Hc'
                    |? Hs' Hsel' Hc' Hall|c ? Hs' Hsel' Hc' Hfree|Hunread];
    subst; simpl; try done; try (by rewrite Hu).
  rewrite map_app. simpl. apply NoDup_app.
  split_and!; [done | | apply NoDup_singleton].
  intros u (x & -> & Hx)%list_elem_of_fmap Heq%list_elem_of_singleton.
  by apply (proj1 (select_by_original_url_None db (submitted_url ctx)) Hsel' x).
Qed.

Lemma follow_one_code_per_url ctx db :
  one_code_per_url db → one_code_per_url (follow ctx db).2.
Proof.
  unfold one_code_per_url. intros Hone.
  destruct (follow_cases ctx db)
    as [[_ ->] | [(r & _ & _ & _ & _ & ->) | (r & _ & _ & _ & _ & ->)]];
    simpl; [done | by apply NoDup_map_filter |].
  rewrite map_map.
  replace (map _ (urls db)) with (map u_original_url (urls db)); [done |].
  apply map_ext. intros x. by case_decide.
Qed.

Lemma serve_one_code_per_url rq db :
  one_code_per_url db → one_code_per_url (serve urlparse rq db).2.
Proof.
  intros Hone. destruct rq as [ctx|ctx]; simpl.
  - unfold route_shorten.
    destruct (rate_limit_cases "shorten" (shorten urlparse) ctx db)
      as (db0 & Hu & _ & [-> | ->]); simpl.
    + unfold one_code_per_url. by rewrite Hu.
    + apply shorten_one_code_per_url. unfold one_code_per_url. by rewrite Hu.
  - unfold route_follow.
    destruct (rate_limit_cases "follow" follow ctx db)
      as (db0 & Hu & _ & [-> | ->]); simpl.
    + unfold one_code_per_url. by rewrite Hu.
    + apply follow_one_code_per_url. unfold one_code_per_url. by rewrite Hu.
Qed.

(** X7: in every state the service reaches from an empty table, by any
    requests at all, no two rows of [urls] are for the same URL: a URL
    has at most one code at a time. *)
Theorem reachable_one_code_per_url (rs : list Request) (db : Db) :
  urls db = [] → one_code_per_url (serve_all urlparse rs db).
Proof.
  intros Hempty.
  assert (Hone : one_code_per_url db).
  { unfold one_code_per_url. rewrite Hempty. apply NoDup_nil. done. }
  clear Hempty. revert db Hone.
  induction rs as [|rq rs IH]; intros db Hone; simpl; [done |].
  by apply IH, serve_one_code_per_url.
Qed.

(** *** Rejected submissions *)

Lemma validate_url_accepts url :
  validate_url urlparse url = Returned None ↔
  url ≠ "" ∧ Py.len url ≤ MAX_URL_LENGTH
  ∧ ∃ parsed, urlparse url = Returned parsed
              ∧ (scheme parsed = "http" ∨ scheme parsed = "https")
              ∧ netloc parsed ≠ "".
Proof.
  unfold validate_url.
  destruct (Py.truthy url) eqn:Htr; simpl.
  2: { apply truthy_false in Htr. split; [done | by intros [? _]]. }
  apply truthy_true in Htr.
  destruct (MAX_URL_LENGTH <? Py.len url) eqn:Hlen.
  { apply Z.ltb_lt in Hlen. split; [done | intros (_ & ? & _); lia]. }
  apply Z.ltb_ge in Hlen.
  destruct (urlparse url) as [parsed|]; [|split; [done | by intros (_ & _ & ? & ? & _)]].
  assert (Hsch : bool_decide (scheme parsed = "http")
                 || bool_decide (scheme parsed = "https") = true
                 ↔ scheme parsed = "http" ∨ scheme parsed = "https")
    by (by rewrite orb_true_iff, !bool_decide_eq_true).
  destruct (bool_decide _ || bool_decide _) eqn:Hb; simpl.
  - destruct (Py.truthy (netloc parsed)) eqn:Hn; simpl.
    + split; [|done]. intros _. split_and!; try done.
      exists parsed. split_and!; [done | by apply Hsch | by apply truthy_true].
    + split; [done |]. intros (_ & _ & p & [= <-] & _ & Hne).
      by apply truthy_false in Hn.
  - split; [done |]. intros (_ & _ & p & [= <-] & Hs & _).
    apply Hsch in Hs. done.
Qed.

Lemma validated_readable ctx :
  validated urlparse ctx → is_Some (read_payload ctx).
Proof.
  intros [Hu _]. destruct (read_payload ctx) eqn:Hread; [done |].
  apply (unreadable_not_valid urlparse) in Hread. congruence.
Qed.

(** X8: [shorten] answers 400 exactly when the two fields of the
    payload can be read and one of the validations returns an error --
    the URL is missing, empty, longer than 2048 characters, without the
    scheme http or https or without a host, or the custom code is
    refused.  It answers 500 exactly when the payload cannot be read
    (the body is not an object, or a field holds a true value that is
    not a string) or the parser raises on the URL.  Every other request
    passes both validations.  After a 400 or a 500 the whole database
    is as it was: a rejected submission is not counted by the spam
    counter. *)
Theorem shorten_rejection_leaves_db (ctx : Ctx) (db : Db) :
  (validated urlparse ctx ↔
   is_Some (read_payload ctx)
   ∧ (submitted_url ctx ≠ "" ∧ Py.len (submitted_url ctx) ≤ 2048
      ∧ ∃ parsed, urlparse (submitted_url ctx) = Returned parsed
                  ∧ (scheme parsed = "http" ∨ scheme parsed = "https")
                  ∧ netloc parsed ≠ "")
   ∧ validate_custom_code (submitted_code ctx) = None)
  ∧ ((shorten urlparse ctx db).1.2 = 400 ↔
     is_Some (read_payload ctx)
     ∧ ∃ error,
         validate_url urlparse (submitted_url ctx) = Returned (Some error)
         ∨ (validate_url urlparse (submitted_url ctx) = Returned None
            ∧ validate_custom_code (submitted_code ctx) = Some error))
  ∧ ((shorten urlparse ctx db).1.2 = 500 ↔
     read_payload ctx = None
     ∨ validate_url urlparse (submitted_url ctx) = ValueError)
  ∧ (validated urlparse ctx ↔
     (shorten urlparse ctx db).1.2 ≠ 400 ∧ (shorten urlparse ctx db).1.2 ≠ 500)
  ∧ ((shorten urlparse ctx db).1.2 = 400 ∨ (shorten urlparse ctx db).1.2 = 500 →
     (shorten urlparse ctx db).2 = db).
Proof.
  assert (Hreadable : ∀ x, read_payload ctx = Some x → is_Some (read_payload ctx))
    by (intros x ->; by eexists).
  split_and!.
  - split.
    + intros Hv. split; [by apply validated_readable |].
      destruct Hv as [Hu Hc]. by apply validate_url_accepts in Hu.
    + intros (_ & Hu & Hc). split; [by apply validate_url_accepts | done].
  - pose proof (shorten_outcome urlparse ctx db) as Hout.
    destruct (shorten urlparse ctx db) as [resp db'].
    inversion Hout as [e [Hr He]|He|[Hu Hc] Hs'|r [Hu Hc] Hs' Hsel'
                      |r [Hu Hc] Hs' Hsel' Hc' Htaken
                      |[Hu Hc] Hs' Hsel' Hc' Hall
                      |c [Hu Hc] Hs' Hsel' Hc' Hfree|Hunread];
      subst; simpl; (split; [intros Hst | intros [Hr' [e' He']]]);
      try done;
      try (exfalso; destruct He' as [? | [? ?]]; congruence);
      try (split; [done | by exists e]);
      try (rewrite Hunread in Hr'; by destruct Hr').
  - pose proof (shorten_outcome urlparse ctx db) as Hout.
    destruct (shorten urlparse ctx db) as [resp db'].
    inversion Hout as [e [Hr He]|He|[Hu Hc] Hs'|r [Hu Hc] Hs' Hsel'
                      |r [Hu Hc] Hs' Hsel' Hc' Htaken
                      |[Hu Hc] Hs' Hsel' Hc' Hall
                      |c [Hu Hc] Hs' Hsel' Hc' Hfree|Hunread];
      subst; simpl; (split; [intros Hst | intros [Hno | Hraise]]);
      try done;
      try (by right); try (by left);
      try (exfalso; congruence);
      try (apply (unreadable_not_valid urlparse) in Hno; exfalso; congruence);
      try (rewrite Hno in Hr; by destruct Hr);
      try (destruct He as [? | [? ?]]; congruence).
  - pose proof (shorten_outcome urlparse ctx db) as Hout.
    destruct (shorten urlparse ctx db) as [resp db'].
    inversion Hout as [e [Hr He]|He|Hv Hs'|r Hv Hs' Hsel'
                      |r Hv Hs' Hsel' Hc' Htaken
                      |Hv Hs' Hsel' Hc' Hall
                      |c Hv Hs' Hsel' Hc' Hfree|Hunread];
      subst; simpl; (split; [intros [Hu Hc] | intros [H400 H500]]);
      try done;
      try (destruct He as [? | [? ?]]; congruence);
      try congruence;
      try (apply (unreadable_not_valid urlparse) in Hunread; congruence).
  - intros Hst. pose proof (shorten_outcome urlparse ctx db) as Hout.
    destruct (shorten urlparse ctx db) as [resp db'].
    inversion Hout; subst; simpl in *; try done; by destruct Hst.
Qed.


(** *** Custom codes are tried once *)

(** X9: for a request that passes the validations and the spam check,
    for a URL that has no row, with a custom code: when a row with that
    code is stored, expired or not, [shorten] answers 409 "already
    taken" and leaves [urls] alone; otherwise it answers 201 with
    exactly the custom code and adds the one row for it, with no click,
    whatever the random source would have given. *)
Theorem shorten_custom_code (ctx : Ctx) (db : Db) :
  validated urlparse ctx → (spam_check ctx db).2 = false →
  Sql.select_by_original_url db (submitted_url ctx) = None →
  submitted_code ctx ≠ "" →
  match Sql.select_by_code db (submitted_code ctx) with
  | Some _ =>
      shorten urlparse ctx db
      = ((JsonError
            "This short code is already taken. Please choose another one.",
          409), (spam_check ctx db).1)
      ∧ urls (shorten urlparse ctx db).2 = urls db
  | None =>
      shorten urlparse ctx db
      = (created_response ctx (submitted_code ctx) (submitted_url ctx)
           (expires_at_of ctx),
         set_urls (spam_check ctx db).1
           (urls db ++ [Sql.new_row db (submitted_code ctx) (submitted_url ctx)
                          (created_at_of ctx) (expires_at_of ctx)]))
  end.
Proof.
  intros Hv Hs Hsel Hcode.
  pose proof (shorten_outcome urlparse ctx db) as Hout.
  pose proof (spam_check_frame ctx db) as (Hu & _ & _).
  destruct (shorten urlparse ctx db) as [resp db'].
  inversion Hout as [e He|He|? Hs'|r ? Hs' Hsel'|r ? Hs' Hsel' Hc' Htaken
                    |? Hs' Hsel' Hc' Hall|c ? Hs' Hsel' Hc' Hfree|Hunread];
    subst; try (outcome_cases; exfalso; congruence).
  - by rewrite Htaken.
  - destruct Hc' as [[_ ->] | [Hempty _]]; [|done].
    by rewrite Hfree.
Qed.

(** *** White space around the payload *)

Lemma lstrip_with_fixed p s :
  (∀ c a, s = String c a → p c = false) → Py.lstrip_with p s = s.
Proof.
  destruct s as [|c a]; simpl; [done |].
  intros H. by rewrite (H c a eq_refl).
Qed.

Lemma rstrip_with_fixed p s :
  (∀ a c, s = a +:+ String c "" → p c = false) → Py.rstrip_with p s = s.
Proof.
  induction s as [|d s IH]; simpl; [done |]. intros H.
  rewrite IH.
  - destruct s as [|e t]; [|done].
    by rewrite (H "" d eq_refl).
  - intros a c ->. apply (H (String d a) c). by rewrite sapp_cons.
Qed.

Lemma strip_strip s : Py.strip (Py.strip s) = Py.strip s.
Proof.
  destruct (strip_spec s) as (l & r & _ & _ & _ & Hfirst & Hlast).
  unfold Py.strip at 1.
  rewrite (lstrip_with_fixed _ (Py.strip s))
    by (intros c a Hc; by apply (Hfirst c a)).
  apply rstrip_with_fixed. intros a c Ha. by apply (Hlast a c).
Qed.

Lemma or_empty_strip_string s : or_empty_strip (JString s) = Some (Py.strip s).
Proof. by destruct s. Qed.

Lemma shorten_same_payload ctx1 ctx2 db :
  read_payload ctx1 = read_payload ctx2 →
  time_spam ctx1 = time_spam ctx2 → get_client_ip ctx1 = get_client_ip ctx2 →
  build_short_url ctx1 = build_short_url ctx2 →
  utcnow_created ctx1 = utcnow_created ctx2 →
  utcnow_expires ctx1 = utcnow_expires ctx2 →
  randbelow ctx1 = randbelow ctx2 →
  shorten urlparse ctx1 db = shorten urlparse ctx2 db.
Proof.
  intros Hread Hts Hip Hshort Hc He Hr. unfold shorten, created_response.
  by rewrite Hread, Hts, Hip, Hshort, Hc, He, Hr.
Qed.

(** X10: white space around the submitted URL and custom code does not
    matter, and a field that is missing or null counts as an empty
    string: [shorten] does the same for a payload of two strings and
    for the payload with both strings stripped, and the same for a
    null field and for the empty string in its place.  A payload that
    can be read and has no URL, or a blank one, is refused with 400
    "Please enter a URL."; a payload that cannot be read -- a body that
    is not an object, or a field with a true value that is not a
    string -- ends in the 500 answer.  The database is left as it was
    in both cases. *)
Theorem shorten_ignores_outer_whitespace (ctx : Ctx) (db : Db) :
  (∀ u c,
     shorten urlparse
       (set_payload ctx (JObject (JString (Py.strip u)) (JString (Py.strip c))))
       db
     = shorten urlparse (set_payload ctx (JObject (JString u) (JString c))) db)
  ∧ (∀ v,
       shorten urlparse (set_payload ctx (JObject JNull v)) db
       = shorten urlparse (set_payload ctx (JObject (JString "") v)) db
       ∧ shorten urlparse (set_payload ctx (JObject v JNull)) db
         = shorten urlparse (set_payload ctx (JObject v (JString ""))) db)
  ∧ (is_Some (read_payload ctx) → submitted_url ctx = "" →
     shorten urlparse ctx db = ((JsonError "Please enter a URL.", 400), db))
  ∧ (read_payload ctx = None →
     shorten urlparse ctx db = ((InternalServerError, 500), db))
  ∧ (read_payload ctx = None ↔
     match json_body ctx with
     | JNotObject => True
     | JObject url code =>
         url = JOther true ∨ code = JOther true
     end).
Proof.
  split_and!.
  - intros u c. apply shorten_same_payload; try done.
    unfold read_payload. cbn [json_body set_payload].
    by rewrite !or_empty_strip_string, !strip_strip.
  - intros v. split; apply shorten_same_payload; try done;
      unfold read_payload; cbn [json_body set_payload]; by destruct v as [| |[]].
  - intros [[u c] Hread] Hempty. unfold submitted_url in Hempty.
    rewrite Hread in Hempty. subst u. unfold shorten. by rewrite Hread.
  - intros Hread. unfold shorten. by rewrite Hread.
  - unfold read_payload. destruct (json_body ctx) as [url code|]; [|done].
    destruct url as [| |[]], code as [| |[]]; simpl; split;
      first [done | by left | by right | by intros [? | ?]].
Qed.

(** *** Every request is counted *)

Lemma shorten_rate_limits ctx db :
  rate_limits (shorten urlparse ctx db).2 = rate_limits db.
Proof.
  pose proof (shorten_outcome urlparse ctx db) as Hout.
  pose proof (spam_check_frame ctx db) as (_ & Hrl & _).
  destruct (shorten urlparse ctx db) as [resp db'].
  inversion Hout; subst; simpl; done.
Qed.

(** X11: each request to [POST /shorten] or [GET /<code>] moves the
    counter of (client address, bucket) by the counting rule with a
    window of 60 seconds, whatever the answer is: refused, invalid and
    not-found requests are counted like the others, and no other row of
    [rate_limits] changes. *)
Theorem route_counts_every_request (ctx : Ctx) (db : Db) :
  rate_limits (route_shorten urlparse ctx db).2
  = <[(get_client_ip ctx, "shorten") :=
        next_window (time_rate ctx) 60
          (rate_limits db !! (get_client_ip ctx, "shorten"))]> (rate_limits db)
  ∧ rate_limits (route_follow ctx db).2
    = <[(get_client_ip ctx, "follow") :=
          next_window (time_rate ctx) 60
            (rate_limits db !! (get_client_ip ctx, "follow"))]> (rate_limits db).
Proof.
  pose proof (check_rate_limit_next_window (time_rate ctx) db
                (get_client_ip ctx) "shorten" 60 10) as Hs.
  pose proof (check_rate_limit_next_window (time_rate ctx) db
                (get_client_ip ctx) "follow" 60 120) as Hf.
  unfold route_shorten, route_follow, rate_limit.
  change (RATE_LIMITS "shorten") with (Some {| rc_limit := 10; rc_window := 60 |}).
  change (RATE_LIMITS "follow") with (Some {| rc_limit := 120; rc_window := 60 |}).
  cbn [rc_window rc_limit].
  destruct (check_rate_limit (time_rate ctx) db (get_client_ip ctx) "shorten" 60 10)
    as [db1 a1].
  destruct (check_rate_limit (time_rate ctx) db (get_client_ip ctx) "follow" 60 120)
    as [db2 a2].
  injection Hs as -> _. injection Hf as -> _.
  split.
  - destruct (negb a1); [done |]. by rewrite shorten_rate_limits.
  - destruct (negb a2); [done |].
    by destruct (follow_frame ctx
                   (set_rate_limits db
                      (<[(get_client_ip ctx, "follow") :=
                           next_window (time_rate ctx) 60
                             (rate_limits db !! (get_client_ip ctx, "follow"))]>
                         (rate_limits db)))) as [-> _].
Qed.

(** *** What a new link holds *)

(** X12: when [shorten] answers 201, the table has gained exactly one
    row, last: it has the answered code and URL, no click, the creation
    time in whole seconds, and the answered expiry, which lies at most
    24 hours and more than 24 hours less a second after the clock
    reading it was computed from; the rows that were there are
    unchanged. *)
Theorem created_link_row (ctx : Ctx) (db : Db) (c u su : string) (e : Z) :
  (shorten urlparse ctx db).1 = (JsonCreated c u su e, 201) →
  urls (shorten urlparse ctx db).2
  = urls db ++ [{| u_id := Sql.next_id (urls db); u_code := c;
                   u_original_url := u;
                   u_created_at := utcnow_created ctx / 1000000;
                   u_expires_at := e; u_click_count := 0 |}]
  ∧ u = submitted_url ctx
  ∧ su = build_short_url ctx c
  ∧ utcnow_expires ctx + 24 * 3600 * 1000000 - 1000000 < fromisoformat e
  ∧ fromisoformat e ≤ utcnow_expires ctx + 24 * 3600 * 1000000
  ∧ Sql.select_by_code db c = None
  ∧ Sql.select_by_original_url db u = None.
Proof.
  intros Hresp. pose proof (shorten_outcome urlparse ctx db) as Hout.
  destruct (shorten urlparse ctx db) as [resp db']. simpl in Hresp. subst resp.
  inversion Hout as [| | | | | |code Hv Hs Hsel Hc Hfree Hr|]; subst.
  simpl. split_and!; try done.
  - unfold expires_at_of, isoformat_seconds, fromisoformat, timedelta_hours,
      EXPIRATION_HOURS.
    pose proof (Z.mod_pos_bound (utcnow_expires ctx + 24 * 3600 * 1000000) 1000000).
    pose proof (Z.div_mod (utcnow_expires ctx + 24 * 3600 * 1000000) 1000000).
    lia.
  - unfold expires_at_of, isoformat_seconds, fromisoformat, timedelta_hours,
      EXPIRATION_HOURS.
    pose proof (Z.mod_pos_bound (utcnow_expires ctx + 24 * 3600 * 1000000) 1000000).
    pose proof (Z.div_mod (utcnow_expires ctx + 24 * 3600 * 1000000) 1000000).
    lia.
Qed.

(** *** What [shorten] leaves alone *)

(** X13: [shorten] never writes to [rate_limits], changes no spam
    counter but the one of its own (client address, URL) pair, and
    never changes or removes a row of [urls]: the table afterwards is
    the table before, followed by at most one new row. *)
Theorem shorten_frame (ctx : Ctx) (db : Db) :
  rate_limits (shorten urlparse ctx db).2 = rate_limits db
  ∧ (∀ k, k ≠ (get_client_ip ctx, submitted_url ctx) →
       spam_submissions (shorten urlparse ctx db).2 !! k
       = spam_submissions db !! k)
  ∧ ∃ l, urls (shorten urlparse ctx db).2 = urls db ++ l ∧ (length l ≤ 1)%nat.
Proof.
  split; [apply shorten_rate_limits |].
  pose proof (shorten_outcome urlparse ctx db) as Hout.
  pose proof (spam_check_frame ctx db) as (Hu & _ & Hsp).
  destruct (shorten urlparse ctx db) as [resp db'].
  inversion Hout; subst; simpl; (split; [try done |]);
    try (exists []; rewrite app_nil_r; split; [done | simpl; lia]).
  eexists. split; [reflexivity | simpl; lia].
Qed.

End ShortenMore.

(** ** The further properties on concrete requests *)

Lemma shorten_rejection_leaves_db_witness :
  shorten Urllib.urlparse (Ex.post "ftp://example.com" 1000) Ex.one_link_db
  = ((JsonError "URL must start with http:// or https://.", 400), Ex.one_link_db).
Proof.
  destruct (shorten_rejection_leaves_db Urllib.urlparse
              (Ex.post "ftp://example.com" 1000) Ex.one_link_db)
    as (_ & _ & _ & _ & Hdb).
  apply injective_projections; [reflexivity |].
  apply Hdb. left. reflexivity.
Defined.

Lemma reachable_invariant_witness :
  db_wf (serve_all Urllib.urlparse
           [PostShorten (Ex.post "https://example.com/a" 1000);
            GetCode (Ex.get "0000000" 2000);
            PostShorten (Ex.post_custom "https://example.com/b" "my-link" 3000)]
           Ex.empty_db).
Proof.
  destruct (reachable_invariant Urllib.urlparse
              [PostShorten (Ex.post "https://example.com/a" 1000);
               GetCode (Ex.get "0000000" 2000);
               PostShorten (Ex.post_custom "https://example.com/b" "my-link" 3000)]
              Ex.empty_db) as [Hwf _].
  - reflexivity.
  - constructor; [apply example_draws_in_range |].
    constructor; [exact I |].
    constructor; [|constructor].
    intros i. apply Z.mod_pos_bound. reflexivity.
  - exact Hwf.
Defined.

Lemma reachable_one_code_per_url_witness :
  one_code_per_url
    (serve_all Urllib.urlparse
       [PostShorten (Ex.post "https://example.com/a" 1000);
        PostShorten (Ex.post_custom "https://example.com/a" "my-link" 1040)]
       Ex.empty_db).
Proof.
  apply (reachable_one_code_per_url Urllib.urlparse
           [PostShorten (Ex.post "https://example.com/a" 1000);
            PostShorten (Ex.post_custom "https://example.com/a" "my-link" 1040)]
           Ex.empty_db).
  reflexivity.
Defined.

Lemma shorten_custom_code_witness :
  shorten Urllib.urlparse (Ex.post_custom "https://example.com/b" "0000000" 2000)
    Ex.one_link_db
  = ((JsonError "This short code is already taken. Please choose another one.",
      409),
     (spam_check (Ex.post_custom "https://example.com/b" "0000000" 2000)
        Ex.one_link_db).1).
Proof.
  pose proof (shorten_custom_code Urllib.urlparse
                (Ex.post_custom "https://example.com/b" "0000000" 2000)
                Ex.one_link_db) as H.
  destruct H as [H _].
  - split; vm_compute; reflexivity.
  - vm_compute. reflexivity.
  - vm_compute. reflexivity.
  - vm_compute. discriminate.
  - exact H.
Defined.

Lemma shorten_ignores_outer_whitespace_witness :
  shorten Urllib.urlparse (Ex.request None None "" 1000) Ex.one_link_db
  = ((JsonError "Please enter a URL.", 400), Ex.one_link_db)
  ∧ shorten Urllib.urlparse
      (set_payload (Ex.post "" 1000) (JObject (JOther true) JNull))
      Ex.one_link_db
    = ((InternalServerError, 500), Ex.one_link_db).
Proof.
  split.
  - destruct (shorten_ignores_outer_whitespace Urllib.urlparse
                (Ex.request None None "" 1000) Ex.one_link_db)
      as (_ & _ & Hempty & _).
    apply Hempty; [by eexists | reflexivity].
  - destruct (shorten_ignores_outer_whitespace Urllib.urlparse
                (set_payload (Ex.post "" 1000) (JObject (JOther true) JNull))
                Ex.one_link_db)
      as (_ & _ & _ & Hfail & _).
    apply Hfail. reflexivity.
Defined.

Lemma created_link_row_witness :
  urls (shorten Urllib.urlparse (Ex.post "https://example.com/a" 1000)
          Ex.empty_db).2
  = [Ex.link].
Proof.
  destruct (created_link_row Urllib.urlparse
              (Ex.post "https://example.com/a" 1000) Ex.empty_db
              "0000000" "https://example.com/a" "http://localhost:5000/0000000"
              87400) as [Hrow _].
  - vm_compute. reflexivity.
  - rewrite Hrow. reflexivity.
Defined.

Lemma shorten_frame_witness :
  spam_submissions
    (shorten Urllib.urlparse (Ex.post "https://example.com/a" 1000)
       Ex.one_link_db).2 !! ("10.0.0.1", "https://example.com/b")
  = None.
Proof.
  destruct (shorten_frame Urllib.urlparse (Ex.post "https://example.com/a" 1000)
              Ex.one_link_db) as (_ & Hsp & _).
  rewrite Hsp; [reflexivity |].
  vm_compute. discriminate.
Defined.

Lemma shorten_again_same_code_witness :
  ∃ u su m,
    (shorten Urllib.urlparse (Ex.post_custom "https://example.com/a" "my-link" 1040)
       (shorten Urllib.urlparse (Ex.post "https://example.com/a" 1000)
          Ex.empty_db).2).1
    = (JsonExisting "0000000" u su m, 200).
Proof.
  apply (shorten_again_same_code Urllib.urlparse
           (Ex.post "https://example.com/a" 1000)
           (Ex.post_custom "https://example.com/a" "my-link" 1040)
           Ex.empty_db "0000000").
  - left. do 3 eexists. vm_compute. reflexivity.
  - reflexivity.
  - split; vm_compute; reflexivity.
  - vm_compute. reflexivity.
Defined.
